(** * WeeekClient: name resolution and task orchestration

    A shallow embedding of the [WeeekClient] class (the client module of
    week-skill) and the properties of its resolver, aggregator and
    task-creation workflow.

    The client is asynchronous JavaScript talking to a remote HTTP API.  Each
    method is embedded as a computation in a small monad [Async] that threads
    the state of the remote system, may throw, and records every request it
    issues together with the reply it got.

    Conventions of the embedding:
    - the remote system is a parameter: an arbitrary state type [World] and
      an arbitrary handler [transport], which may fail any request;
    - [String.prototype.toLowerCase] and [parseInt] are parameters too, so
      that what is proved holds whatever they compute;
    - identifiers are positive numbers, and a response body has one of the
      shapes the API documents, its envelope field possibly absent;
    - the client runs on a single thread: the branches of a [Promise.all]
      issue their requests in the order in which they are started;
    - the replies come back in an order the client does not control: when
      both branches of a [Promise.all] fail, which failure it reports is
      decided by the network, a parameter as well. *)

From Stdlib Require Import String Ascii List Bool ZArith PArith Lia DecimalString.
From Stdlib Require Import Sorted Permutation.
Import ListNotations.
Local Open Scope string_scope.
Local Open Scope list_scope.

(** ** JavaScript strings and values *)

Module Js.

(** [s.startsWith(q)]. *)
Fixpoint startsWith (s q : string) : bool :=
  match q, s with
  | EmptyString, _ => true
  | String _ _, EmptyString => false
  | String c q', String d s' => Ascii.eqb c d && startsWith s' q'
  end.

(** [s.includes(q)]: [q] occurs in [s] at some position. *)
Fixpoint includes (s q : string) : bool :=
  startsWith s q ||
  match s with
  | EmptyString => false
  | String _ s' => includes s' q
  end.

(** Truthiness of a string: only the empty string is falsy. *)
Definition truthy (s : string) : bool :=
  match s with
  | EmptyString => false
  | String _ _ => true
  end.

(** Truthiness of an optional string argument ([undefined] is falsy). *)
Definition given (o : option string) : option string :=
  match o with
  | Some s => if truthy s then Some s else None
  | None => None
  end.

(** [a || b] on strings. *)
Definition or_else (a : option string) (b : string) : string :=
  match given a with
  | Some s => s
  | None => b
  end.

(** [parts.join(sep)]. *)
Definition join (sep : string) (parts : list string) : string :=
  String.concat sep parts.

(** What [parseInt] returns. *)
Inductive Num :=
| NaN
| Int (z : Z).

(** The double quote character, as a one-character string. *)
Definition dquote : string := String (ascii_of_nat 34) EmptyString.

End Js.

(** ** Data model *)

(** Identifiers are issued by the remote system: positive numbers, hence
    truthy as JavaScript values.  An optional identifier is [None] when the
    field is [undefined]. *)
Definition Id := positive.
Bind Scope positive_scope with Id.

Definition show_id (i : Id) : string := NilEmpty.string_of_uint (Pos.to_uint i).

Definition show_status (z : Z) : string := NilZero.string_of_int (Z.to_int z).

Record Project := {
  project_id : Id;
  project_name : string
}.

Record Board := {
  board_id : Id;
  board_name : string;
  board_projectId : option Id;
  board_projectName : option string
}.

Record Column := {
  column_id : Id;
  column_name : string;
  column_boardId : option Id
}.

Record Task := {
  task_id : option Id;
  task_title : option string;
  task_boardId : option Id;
  task_boardColumnId : option Id;
  task_parentId : option Id
}.

(** A workspace member as the remote lists it, and the user derived by
    [getUsers]. *)
Record Member := {
  member_id : Id;
  member_firstName : option string;
  member_lastName : option string;
  member_email : string
}.

Record User := {
  user_id : Id;
  user_name : string;
  user_email : string;
  user_raw : Member
}.

(** One element of a task payload's [locations] array. *)
Record Location := {
  loc_projectId : Z;
  loc_boardId : Id;
  loc_boardColumnId : option Id
}.

(** The object handed to [createTask], and the payload it posts (the same
    shape: the payload is the data with [type] and [locations] settled). *)
Record TaskData := {
  td_type : option string;
  td_title : string;
  td_description : option string;
  td_priority : option Js.Num;
  td_projectId : option Id;
  td_boardId : option Id;
  td_boardColumnId : option Id;
  td_assignees : option (list Id);
  td_parentId : option Id;
  td_locations : option (list Location)
}.

(** The argument of [createTaskDetailed]. *)
Record TaskSpec := {
  title : string;
  boardName : option string;
  columnName : option string;
  assigneeName : option string;
  priority : option string;
  description : option string;
  subtasks : list string
}.

(** What [getBoardWithContext] returns: the board's fields with [columns]
    and [tasks] joined. *)
Record BoardContext := {
  ctx_board : Board;
  ctx_columns : list Column;
  ctx_tasks : list Task
}.

(** ** The transport *)

(** The requests the client issues through [request(method, path, body, params)]. *)
Inductive Request :=
| GET_projects                                        (* GET tm/projects *)
| GET_boards (projectId : Id)                         (* GET tm/boards ?projectId *)
| GET_board_columns (boardId : Id)                    (* GET tm/board-columns ?boardId *)
| GET_tasks (boardId : option Id)                     (* GET tm/tasks ?boardId *)
| GET_task (taskId : Id)                              (* GET tm/tasks/:id *)
| POST_tasks (payload : TaskData)                     (* POST tm/tasks *)
| POST_board_column (taskId : Id) (boardColumnId : Id) (* POST tm/tasks/:id/board-column *)
| GET_members.                                        (* GET ws/members *)

(** Requests that change the remote system. *)
Definition mutating (r : Request) : bool :=
  match r with
  | POST_tasks _ | POST_board_column _ _ => true
  | _ => false
  end.

(** A parsed response body.  Envelope fields may be absent. *)
Inductive Response :=
| ProjectsBody (projects : option (list Project))
| BoardsBody (boards : option (list Board))
| ColumnsBody (boardColumns : option (list Column))
| TasksBody (tasks : option (list Task))
| TaskBody (task : Task)
| MembersBody (members : option (list Member))
| TextBody (text : string).

(** How a request can fail: a non-success status, or [fetch] rejecting. *)
Inductive TransportFailure :=
| HttpStatus (status : Z) (statusText text : string)
| FetchRejected (reason : string).

Inductive Reply :=
| Replied (body : Response)
| Failed (f : TransportFailure).

(** One request together with the reply it got. *)
Definition Exchange := (Request * Reply)%type.

(** ** Errors *)

(** The errors the client throws; [message] is the text of the JavaScript
    [Error]. *)
Inductive Error :=
| RequestFailed (f : TransportFailure)
| BoardNotFound (boardName : string)
| MultipleBoards (matches : list Board)
| ColumnNotFound (columnName boardName : string)
| UserNotFound (assigneeName : string)
| TaskNotFound
| TaskNotOnBoard
| ColumnNotOnBoard (columnName : string).

(** [`"${m.name}" (ID: ${m.id})`] *)
Definition describeBoard (m : Board) : string :=
  Js.dquote ++ board_name m ++ Js.dquote ++ " (ID: " ++ show_id (board_id m) ++ ")".

Definition message (e : Error) : string :=
  match e with
  | RequestFailed (HttpStatus status statusText text) =>
      show_status status ++ " " ++ statusText ++ ": " ++ text
  | RequestFailed (FetchRejected reason) => reason
  | BoardNotFound boardName =>
      "Board " ++ Js.dquote ++ boardName ++ Js.dquote ++ " not found."
  | MultipleBoards matches =>
      "Multiple boards found: " ++ Js.join ", " (map describeBoard matches)
        ++ ". Please be more specific."
  | ColumnNotFound columnName boardName =>
      "Column " ++ Js.dquote ++ columnName ++ Js.dquote ++ " not found on board "
        ++ Js.dquote ++ boardName ++ Js.dquote ++ "."
  | UserNotFound assigneeName =>
      "User " ++ Js.dquote ++ assigneeName ++ Js.dquote ++ " not found."
  | TaskNotFound => "Task not found"
  | TaskNotOnBoard => "Task is not assigned to a board"
  | ColumnNotOnBoard columnName =>
      "Column " ++ Js.dquote ++ columnName ++ Js.dquote ++ " not found on board."
  end.


(** ** Asynchronous computations *)

Inductive Outcome (A : Type) :=
| Returned (a : A)
| Thrown (e : Error).
Arguments Returned {A} a.
Arguments Thrown {A} e.

(** The order of arrival.  [Promise.all] rejects with the first rejection
    that reaches it.  When two requests in flight both fail, [overtakes w]
    says, the remote being left in state [w], that the failure of the
    request issued second arrives before the failure of the first. *)
Class Network (World : Type) := overtakes : World -> bool.

Section Async.

(** The remote system: its state, and the order in which its answers
    arrive. *)
Context {World : Type} {network : Network World}.

(** A computation runs against the remote state; it yields its outcome,
    the remote state it leaves and the exchanges it made, oldest first. *)
Definition Async (A : Type) : Type := World -> Outcome A * World * list Exchange.

Definition ret {A} (a : A) : Async A := fun w => (Returned a, w, []).

Definition throw {A} (e : Error) : Async A := fun w => (Thrown e, w, []).

Definition bind {A B} (m : Async A) (k : A -> Async B) : Async B := fun w =>
  match m w with
  | (Returned a, w1, t1) =>
      match k a w1 with
      | (o, w2, t2) => (o, w2, t1 ++ t2)
      end
  | (Thrown e, w1, t1) => (Thrown e, w1, t1)
  end.

(** [try { m } catch { h }] *)
Definition try_catch {A} (m : Async A) (h : Error -> Async A) : Async A := fun w =>
  match m w with
  | (Returned a, w1, t1) => (Returned a, w1, t1)
  | (Thrown e, w1, t1) =>
      match h e w1 with
      | (o, w2, t2) => (o, w2, t1 ++ t2)
      end
  end.

(** [Promise.all(ms)]: every branch has been started, in order, when
    [Promise.all] is called, so every branch issues its requests whether or
    not another one fails; the results keep the order of [ms].  The client
    calls it on branches that catch their own failures ([getBoards]), so
    it never rejects there; on branches that fail, the failure of the
    earliest one stands for the one reported. *)
Fixpoint all {A} (ms : list (Async A)) : Async (list A) := fun w =>
  match ms with
  | [] => (Returned [], w, [])
  | m :: ms' =>
      match m w with
      | (o, w1, t1) =>
          match all ms' w1 with
          | (os, w2, t2) =>
              (match o, os with
               | Returned a, Returned l => Returned (a :: l)
               | Thrown e, _ => Thrown e
               | Returned _, Thrown e => Thrown e
               end, w2, t1 ++ t2)
          end
      end
  end.

(** [Promise.all([ma, mb])] with two branches of different types.  Both
    branches run; when one fails its failure is reported, and when both
    fail, the failure that arrives first. *)
Definition all2 {A B} (ma : Async A) (mb : Async B) : Async (A * B) := fun w =>
  match ma w with
  | (oa, w1, t1) =>
      match mb w1 with
      | (ob, w2, t2) =>
          (match oa, ob with
           | Returned a, Returned b => Returned (a, b)
           | Thrown e, Returned _ => Thrown e
           | Returned _, Thrown e => Thrown e
           | Thrown ea, Thrown eb => Thrown (if overtakes w2 then eb else ea)
           end, w2, t1 ++ t2)
      end
  end.

(** [for (const x of xs) { await body(x) }] *)
Fixpoint for_of {A} (xs : list A) (body : A -> Async unit) : Async unit :=
  match xs with
  | [] => ret tt
  | x :: xs' => bind (body x) (fun _ => for_of xs' body)
  end.

End Async.

Declare Scope async_scope.
Delimit Scope async_scope with async.
Notation "x <- m ;; k" := (bind m (fun x => k))
  (at level 61, m at next level, right associativity) : async_scope.
Notation "' p <- m ;; k" := (bind m (fun x => match x with p => k end))
  (at level 61, p pattern, m at next level, right associativity) : async_scope.
Notation "m ;;; k" := (bind m (fun _ => k))
  (at level 61, right associativity) : async_scope.
Local Open Scope async_scope.

(** ** The client *)

Section Client.

Context {World : Type} {network : Network World}.

(** The transport collaborator: how the remote system answers a request
    in a given state, and the state it moves to. *)
Variable transport : Request -> World -> Reply * World.

(** The JavaScript built-ins the client calls. *)
Variable toLowerCase : string -> string.
Variable parseInt : string -> Js.Num.

(** [request(method, path, body, params)]: one exchange with the remote;
    throws when the reply is a failure. *)
Definition request (r : Request) : Async Response := fun w =>
  match transport r w with
  | (Replied body, w') => (Returned body, w', [(r, Replied body)])
  | (Failed f, w') => (Thrown (RequestFailed f), w', [(r, Failed f)])
  end.

(** *** Envelope unwrapping: [data.field || []] *)

Definition projectsOf (data : Response) : list Project :=
  match data with ProjectsBody (Some ps) => ps | _ => [] end.

Definition boardsOf (data : Response) : list Board :=
  match data with BoardsBody (Some bs) => bs | _ => [] end.

Definition boardColumnsOf (data : Response) : list Column :=
  match data with ColumnsBody (Some cs) => cs | _ => [] end.

Definition tasksOf (data : Response) : list Task :=
  match data with TasksBody (Some ts) => ts | _ => [] end.

Definition membersOf (data : Response) : list Member :=
  match data with MembersBody (Some ms) => ms | _ => [] end.

(** An object none of whose task fields is defined. *)
Definition noFields : Task :=
  {| task_id := None; task_title := None; task_boardId := None;
     task_boardColumnId := None; task_parentId := None |}.

(** [res.task || res], read as a task; [None] when that value is falsy. *)
Definition taskOf (res : Response) : option Task :=
  match res with
  | TaskBody t => Some t
  | TextBody text => if Js.truthy text then Some noFields else None
  | _ => Some noFields
  end.

(** [task.id] of such a value. *)
Definition idOf (task : option Task) : option Id :=
  match task with
  | Some t => task_id t
  | None => None
  end.

(** *** Projects and boards *)

Definition getProjects : Async (list Project) :=
  data <- request GET_projects ;;
  ret (projectsOf data).

(** [getBoards(projectId)] with a project id (the first branch). *)
Definition getBoardsOf (projectId : Id) : Async (list Board) :=
  data <- request (GET_boards projectId) ;;
  ret (boardsOf data).

(** [{ ...b, projectName: p.name }] *)
Definition withProjectName (p : Project) (b : Board) : Board :=
  {| board_id := board_id b; board_name := board_name b;
     board_projectId := board_projectId b;
     board_projectName := Some (project_name p) |}.

(** One branch of the fan-out: the body of [projects.map(async p => ...)]. *)
Definition boardsBranch (p : Project) : Async (list Board) :=
  try_catch
    (boards <- getBoardsOf (project_id p) ;;
     ret (map (withProjectName p) boards))
    (fun _ => ret []).

(** [getBoards(projectId = null)].  The inner call [this.getBoards(p.id)]
    carries an id, so it is [getBoardsOf]. *)
Definition getBoards (projectId : option Id) : Async (list Board) :=
  match projectId with
  | Some projectId => getBoardsOf projectId
  | None =>
      projects <- getProjects ;;
      results <- all (map boardsBranch projects) ;;
      ret (concat results)
  end.

(** The two tests of [findBoard] on a board's name. *)
Definition nameEquals (queryLower : string) (b : Board) : bool :=
  String.eqb (toLowerCase (board_name b)) queryLower.

Definition nameIncludes (queryLower : string) (b : Board) : bool :=
  Js.includes (toLowerCase (board_name b)) queryLower.

Definition findBoard (query : string) : Async (list Board) :=
  boards <- getBoards None ;;
  let queryLower := toLowerCase query in
  let exact := find (nameEquals queryLower) boards in
  match exact with
  | Some exact => ret [exact]
  | None => ret (filter (nameIncludes queryLower) boards)
  end.

Definition getColumns (boardId : Id) : Async (list Column) :=
  data <- request (GET_board_columns boardId) ;;
  ret (boardColumnsOf data).

Definition columnIncludes (queryLower : string) (c : Column) : bool :=
  Js.includes (toLowerCase (column_name c)) queryLower.

Definition findColumn (boardId : Id) (query : string) : Async (option Column) :=
  columns <- getColumns boardId ;;
  let queryLower := toLowerCase query in
  ret (find (columnIncludes queryLower) columns).

(** *** Tasks *)

Definition getTasks (boardId : option Id) : Async (list Task) :=
  data <- request (GET_tasks boardId) ;;
  ret (tasksOf data).

Definition getTask (taskId : Id) : Async (option Task) :=
  res <- request (GET_task taskId) ;;
  ret (taskOf res).

Definition getBoardWithContext (boardName : string) : Async BoardContext :=
  matches <- findBoard boardName ;;
  match matches with
  | [] => throw (BoardNotFound boardName)
  | [board] =>
      ' (columns, tasks) <- all2 (getColumns (board_id board))
                                 (getTasks (Some (board_id board))) ;;
      ret {| ctx_board := board; ctx_columns := columns; ctx_tasks := tasks |}
  | _ :: _ :: _ => throw (MultipleBoards matches)
  end.

(** The payload [createTask] builds from its data: [{ type: 'action', ...data }],
    then [locations] when a board id is provided. *)
Definition payloadOf (data : TaskData) : TaskData :=
  {| td_type := Some (match td_type data with Some t => t | None => "action" end);
     td_title := td_title data;
     td_description := td_description data;
     td_priority := td_priority data;
     td_projectId := td_projectId data;
     td_boardId := td_boardId data;
     td_boardColumnId := td_boardColumnId data;
     td_assignees := td_assignees data;
     td_parentId := td_parentId data;
     td_locations :=
       match td_boardId data with
       | Some boardId =>
           Some [ {| loc_projectId :=
                       match td_projectId data with
                       | Some projectId => Zpos projectId
                       | None => 0%Z
                       end;
                     loc_boardId := boardId;
                     loc_boardColumnId := td_boardColumnId data |} ]
       | None => td_locations data
       end |}.

Definition createTask (data : TaskData) : Async (option Task) :=
  let payload := payloadOf data in
  res <- request (POST_tasks payload) ;;
  ret (taskOf res).

Definition moveTask (taskId boardColumnId : Id) : Async Response :=
  request (POST_board_column taskId boardColumnId).

(** *** Users *)

(** [[u.firstName, u.lastName].filter(Boolean)] *)
Definition nameParts (u : Member) : list string :=
  flat_map (fun part => match Js.given part with Some s => [s] | None => [] end)
           [member_firstName u; member_lastName u].

Definition userOf (u : Member) : User :=
  {| user_id := member_id u;
     user_name := Js.or_else (Some (Js.join " " (nameParts u))) (member_email u);
     user_email := member_email u;
     user_raw := u |}.

Definition getUsers : Async (list User) :=
  data <- request GET_members ;;
  ret (map userOf (membersOf data)).

Definition userIncludes (queryLower : string) (u : User) : bool :=
  Js.includes (toLowerCase (user_name u)) queryLower
  || Js.includes (toLowerCase (user_email u)) queryLower.

Definition findUser (query : string) : Async (option User) :=
  users <- getUsers ;;
  let queryLower := toLowerCase query in
  ret (find (userIncludes queryLower) users).

(** *** The task-creation workflow *)

(** [assigneeId ? [assigneeId] : []] *)
Definition assigneesOf (assigneeId : option Id) : list Id :=
  match assigneeId with
  | Some a => [a]
  | None => []
  end.

(** The object passed to [createTask] for the primary task. *)
Definition mainData (spec : TaskSpec) (projectId boardId boardColumnId assigneeId : option Id)
  : TaskData :=
  {| td_type := None;
     td_title := title spec;
     td_description := Some (Js.or_else (description spec) EmptyString);
     td_priority := Some (match priority spec with
                          | Some p => parseInt p
                          | None => Js.Int 0
                          end);
     td_projectId := projectId;
     td_boardId := boardId;
     td_boardColumnId := boardColumnId;
     td_assignees := Some (assigneesOf assigneeId);
     td_parentId := None;
     td_locations := None |}.

(** The object passed to [createTask] for the subtask titled [stTitle]. *)
Definition subtaskData (stTitle : string) (mainTask : option Task)
    (projectId boardId boardColumnId assigneeId : option Id) : TaskData :=
  {| td_type := None;
     td_title := stTitle;
     td_description := None;
     td_priority := None;
     td_projectId := projectId;
     td_boardId := boardId;
     td_boardColumnId := boardColumnId;
     td_assignees := Some (assigneesOf assigneeId);
     td_parentId := idOf mainTask;
     td_locations := None |}.

Definition createTaskDetailed (spec : TaskSpec) : Async (option Task) :=
  ' (boardId, boardColumnId, projectId) <-
    match Js.given (boardName spec) with
    | Some boardName =>
        board <- getBoardWithContext boardName ;;
        let boardId := Some (board_id (ctx_board board)) in
        let projectId := board_projectId (ctx_board board) in
        match Js.given (columnName spec) with
        | Some columnName =>
            match find (columnIncludes (toLowerCase columnName)) (ctx_columns board) with
            | None => throw (ColumnNotFound columnName boardName)
            | Some col => ret (boardId, Some (column_id col), projectId)
            end
        | None =>
            match ctx_columns board with
            | first :: _ => ret (boardId, Some (column_id first), projectId)
            | [] => ret (boardId, None, projectId)
            end
        end
    | None => ret (None, None, None)
    end ;;
  assigneeId <-
    match Js.given (assigneeName spec) with
    | Some assigneeName =>
        user <- findUser assigneeName ;;
        match user with
        | None => throw (UserNotFound assigneeName)
        | Some user => ret (Some (user_id user))
        end
    | None => ret None
    end ;;
  mainTask <- createTask (mainData spec projectId boardId boardColumnId assigneeId) ;;
  for_of (subtasks spec) (fun stTitle =>
    _ <- createTask (subtaskData stTitle mainTask projectId boardId boardColumnId assigneeId) ;;
    ret tt) ;;;
  ret mainTask.

Definition moveTaskToColumn (taskId : Id) (columnName : string) : Async Response :=
  task <- getTask taskId ;;
  match task with
  | None => throw TaskNotFound
  | Some task =>
      match task_boardId task with
      | None => throw TaskNotOnBoard
      | Some boardId =>
          col <- findColumn boardId columnName ;;
          match col with
          | None => throw (ColumnNotOnBoard columnName)
          | Some col => moveTask taskId (column_id col)
          end
      end
  end.

(** *** The workflow, phase by phase

    The blocks of [findBoard] and [createTaskDetailed], named so that the
    properties below can speak of them. *)

(** The matches [findBoard] computes from the boards it fetched. *)
Definition boardMatches (query : string) (boards : list Board) : list Board :=
  match find (nameEquals (toLowerCase query)) boards with
  | Some exact => [exact]
  | None => filter (nameIncludes (toLowerCase query)) boards
  end.

(** Resolving the board and the column (the [if (boardName)] block). *)
Definition resolveBoard (spec : TaskSpec) : Async (option Id * option Id * option Id) :=
  match Js.given (boardName spec) with
  | Some boardName =>
      board <- getBoardWithContext boardName ;;
      let boardId := Some (board_id (ctx_board board)) in
      let projectId := board_projectId (ctx_board board) in
      match Js.given (columnName spec) with
      | Some columnName =>
          match find (columnIncludes (toLowerCase columnName))
                     (ctx_columns board) with
          | None => throw (ColumnNotFound columnName boardName)
          | Some col => ret (boardId, Some (column_id col), projectId)
          end
      | None =>
          match ctx_columns board with
          | first :: _ => ret (boardId, Some (column_id first), projectId)
          | [] => ret (boardId, None, projectId)
          end
      end
  | None => ret (None, None, None)
  end.

(** Resolving the assignee (the [if (assigneeName)] block). *)
Definition resolveAssignee (spec : TaskSpec) : Async (option Id) :=
  match Js.given (assigneeName spec) with
  | Some assigneeName =>
      user <- findUser assigneeName ;;
      match user with
      | None => throw (UserNotFound assigneeName)
      | Some user => ret (Some (user_id user))
      end
  | None => ret None
  end.

(** The subtask loop. *)
Definition createSubtasks (titles : list string) (mainTask : option Task)
    (projectId boardId boardColumnId assigneeId : option Id) : Async unit :=
  for_of titles (fun stTitle =>
    _ <- createTask
           (subtaskData stTitle mainTask projectId boardId boardColumnId assigneeId) ;;
    ret tt).

(** The request that creates the subtask titled [stTitle]. *)
Definition subtaskRequest (mainTask : option Task)
    (projectId boardId boardColumnId assigneeId : option Id) (stTitle : string) : Request :=
  POST_tasks (payloadOf
    (subtaskData stTitle mainTask projectId boardId boardColumnId assigneeId)).

End Client.

Arguments request {World} transport r w.

(** ** A concrete remote system, for running the client

    The built-ins restricted to ASCII text and decimal numerals, and a small
    workspace: three projects, of which the second one's boards cannot be
    listed; task creation fails for the titles listed in [rejected]. *)

Module Demo.

(** [toLowerCase] on ASCII text: the letters A to Z become a to z, every
    other character is kept. *)
Definition lowerChar (c : ascii) : ascii :=
  let n := nat_of_ascii c in
  if (65 <=? n)%nat && (n <=? 90)%nat then ascii_of_nat (n + 32) else c.

Fixpoint toLowerCase (s : string) : string :=
  match s with
  | EmptyString => EmptyString
  | String c s' => String (lowerChar c) (toLowerCase s')
  end.

(** [parseInt] on decimal numerals; [NaN] on anything else. *)
Definition parseInt (s : string) : Js.Num :=
  match NilZero.int_of_string s with
  | Some i => Js.Int (Z.of_int i)
  | None => Js.NaN
  end.

Local Open Scope positive_scope.

Definition project (i : Id) (name : string) : Project :=
  {| project_id := i; project_name := name |}.

Definition board (i : Id) (name : string) (p : Id) : Board :=
  {| board_id := i; board_name := name; board_projectId := Some p;
     board_projectName := None |}.

Definition column (i : Id) (name : string) (b : Id) : Column :=
  {| column_id := i; column_name := name; column_boardId := Some b |}.

Definition member (i : Id) (first : string) (last : option string) (email : string)
  : Member :=
  {| member_id := i; member_firstName := Some first; member_lastName := last;
     member_email := email |}.

Definition projects : list Project :=
  [project 1 "Apps"; project 2 "Infra"; project 3 "Docs"].

Definition boardsOfProject (p : Id) : list Board :=
  match p with
  | 1 => [board 10 "Release 2.0" 1; board 11 "Release 2.1" 1; board 12 "Empty" 1]
  | 3 => [board 30 "Release" 3; board 31 "Handbook" 3; board 32 "handbook" 3]
  | _ => []
  end.

Definition columnsOfBoard (b : Id) : list Column :=
  match b with
  | 10 => [column 100 "Backlog" 10; column 101 "Done" 10]
  | 30 => [column 300 "Todo" 30; column 301 "Done" 30]
  | 31 => [column 310 "Ideas" 31]
  | _ => []
  end.

Definition members : list Member :=
  [member 7 "Ann" (Some "Lee") "lee@example.org"; member 8 "Ann" None "ann@example.org"].

(** The state of the remote: the payloads of the tasks created so far. *)
Definition World := list TaskData.

(** Failures arrive in the order in which the requests were issued. *)
#[global] Instance inOrder : Network World := fun _ => false.

Definition rejected : list string := ["B"].

Definition serverError : TransportFailure :=
  HttpStatus 500%Z "Internal Server Error" "rejected".

(** The task the remote makes of a payload; ids count up from 900. *)
Definition created (w : World) (payload : TaskData) : Task :=
  {| task_id := Some (Pos.of_nat (900 + length w)%nat);
     task_title := Some (td_title payload);
     task_boardId := td_boardId payload;
     task_boardColumnId := td_boardColumnId payload;
     task_parentId := td_parentId payload |}.

(** Task 893 sits on board 30, task 894 on no board. *)
Definition storedTask (i : Id) : Task :=
  {| task_id := Some i; task_title := Some "stored";
     task_boardId := if Pos.eqb i 893 then Some 30 else None;
     task_boardColumnId := if Pos.eqb i 893 then Some 300 else None;
     task_parentId := None |}.

Definition transport (r : Request) (w : World) : Reply * World :=
  match r with
  | GET_projects => (Replied (ProjectsBody (Some projects)), w)
  | GET_boards p =>
      if Pos.eqb p 2 then (Failed serverError, w)
      else (Replied (BoardsBody (Some (boardsOfProject p))), w)
  | GET_board_columns b => (Replied (ColumnsBody (Some (columnsOfBoard b))), w)
  | GET_tasks _ => (Replied (TasksBody (Some [])), w)
  | GET_task i => (Replied (TaskBody (storedTask i)), w)
  | POST_tasks payload =>
      if existsb (String.eqb (td_title payload)) rejected
      then (Failed serverError, w)
      else (Replied (TaskBody (created w payload)), w ++ [payload])
  | POST_board_column _ _ => (Replied (TextBody "ok"), w)
  | GET_members => (Replied (MembersBody (Some members)), w)
  end.

Definition spec (t : string) (b c a : option string) (subs : list string) : TaskSpec :=
  {| title := t; boardName := b; columnName := c; assigneeName := a;
     priority := Some "2"; description := None; subtasks := subs |}.

(** Running a client method against this remote, from the empty state. *)
Definition run {A} (m : @Async World A) : Outcome A * World * list Exchange := m [].

Definition outcome {A} (m : @Async World A) : Outcome A := fst (fst (run m)).

Definition trace {A} (m : @Async World A) : list Exchange := snd (run m).

Definition create (s : TaskSpec) : @Async World (option Task) :=
  createTaskDetailed transport toLowerCase parseInt s.

(** A board as [getBoards()] lists it, with its project's name. *)
Definition listed (i : Id) (name : string) (p : Id) (projectName : string) : Board :=
  {| board_id := i; board_name := name; board_projectId := Some p;
     board_projectName := Some projectName |}.

(** What [getBoards()] returns here: project 2 contributes nothing. *)
Definition listing : list Board :=
  [listed 10 "Release 2.0" 1 "Apps"; listed 11 "Release 2.1" 1 "Apps";
   listed 12 "Empty" 1 "Apps"; listed 30 "Release" 3 "Docs";
   listed 31 "Handbook" 3 "Docs"; listed 32 "handbook" 3 "Docs"].

(** The exchanges of [getBoards()]. *)
Definition listingTrace : list Exchange :=
  [(GET_projects, Replied (ProjectsBody (Some projects)));
   (GET_boards 1, Replied (BoardsBody (Some (boardsOfProject 1))));
   (GET_boards 2, Failed serverError);
   (GET_boards 3, Replied (BoardsBody (Some (boardsOfProject 3))))].

(** The users [getUsers()] derives from the members. *)
Definition annLee : User :=
  {| user_id := 7; user_name := "Ann Lee"; user_email := "lee@example.org";
     user_raw := member 7 "Ann" (Some "Lee") "lee@example.org" |}.

Definition ann : User :=
  {| user_id := 8; user_name := "Ann"; user_email := "ann@example.org";
     user_raw := member 8 "Ann" None "ann@example.org" |}.

(** A task on board 10, column "Backlog", assigned to whoever "ann"
    resolves to, with the given subtasks. *)
Definition onRelease (subs : list string) : TaskSpec :=
  spec "T" (Some "Release 2.0") (Some "back") (Some "ann") subs.

(** The payload of its primary task and the remote's answer to it. *)
Definition mainPayload (subs : list string) : TaskData :=
  payloadOf (mainData parseInt (onRelease subs) (Some 1) (Some 10) (Some 100) (Some 7)).

Definition mainReply (subs : list string) : Response :=
  TaskBody (created [] (mainPayload subs)).

(** The creation request of one of its subtasks. *)
Definition subRequest (subs : list string) (stTitle : string) : Request :=
  subtaskRequest (taskOf (mainReply subs)) (Some 1) (Some 10) (Some 100) (Some 7) stTitle.

(** A trace up to its first mutating exchange, and after it. *)
Fixpoint untilMutation (t : list Exchange) : list Exchange :=
  match t with
  | [] => []
  | x :: t' => if mutating (fst x) then [] else x :: untilMutation t'
  end.

Fixpoint afterMutation (t : list Exchange) : list Exchange :=
  match t with
  | [] => []
  | x :: t' => if mutating (fst x) then t' else afterMutation t'
  end.

(** The titles of the tasks whose creation was requested, in order. *)
Definition requestedTitles (t : list Exchange) : list string :=
  flat_map (fun x => match fst x with
                     | POST_tasks payload => [td_title payload]
                     | _ => []
                     end) t.

End Demo.

(** ** Reading a trace *)

(** No exchange of [t] carries a request of the class [banned]. *)
Definition quiet (banned : Request -> bool) (t : list Exchange) : Prop :=
  existsb (fun x => banned (fst x)) t = false.

(** No mutating request was issued. *)
Definition noMutation (t : list Exchange) : Prop := quiet mutating t.

(** The exchange was answered. *)
Definition answered (x : Exchange) : Prop :=
  match snd x with
  | Replied _ => True
  | Failed _ => False
  end.

(** The replies of the remote to requests issued one after the other, and
    the state it is left in. *)
Fixpoint answers {World : Type} (transport : Request -> World -> Reply * World)
    (requests : list Request) (w : World) : list Reply * World :=
  match requests with
  | [] => ([], w)
  | r :: requests' =>
      let (reply, w1) := transport r w in
      let (replies, w2) := answers transport requests' w1 in
      (reply :: replies, w2)
  end.

(** What a project contributes to the aggregated boards, given the reply
    to its boards request. *)
Definition contribution (p : Project) (reply : Reply) : list Board :=
  match reply with
  | Replied data => map (withProjectName p) (boardsOf data)
  | Failed _ => []
  end.

(** The exchange is the creation of the subtask titled [stTitle] of the
    primary task [mainTask] that was created with the payload [main]: it
    carries that title, the primary task's id as [parentId], and the
    project, board, column and assignees of the primary task. *)
Definition subtaskCall (main : TaskData) (mainTask : option Task) (stTitle : string)
    (x : Exchange) : Prop :=
  exists payload,
    fst x = POST_tasks payload /\
    td_title payload = stTitle /\
    td_parentId payload = idOf mainTask /\
    td_projectId payload = td_projectId main /\
    td_boardId payload = td_boardId main /\
    td_boardColumnId payload = td_boardColumnId main /\
    td_assignees payload = td_assignees main.

Definition isMembers (r : Request) : bool :=
  match r with
  | GET_members => true
  | _ => false
  end.

(** The creations of tasks. *)
Definition isCreation (r : Request) : bool :=
  match r with
  | POST_tasks _ => true
  | _ => false
  end.

(** The requests made while a board is resolved. *)
Definition isBoardRead (r : Request) : bool :=
  match r with
  | GET_projects | GET_boards _ | GET_board_columns _ | GET_tasks _ => true
  | _ => false
  end.

(** A computation that, in whatever state it runs, issues no request of the
    class [banned]. *)
Definition Quiet {World : Type} (banned : Request -> bool) {A} (m : @Async World A) : Prop :=
  forall w, quiet banned (snd (m w)).

(** ** The URL of a request

    What [request(method, path, body, params)] does before it calls [fetch].
    [params] is [None] for [null]; otherwise it lists the object's keys in
    the order of [Object.keys], each with its value as a string, or [None]
    for a value that is [null] or [undefined]. *)

Module Http.

Section Url.

(** The base URL of the client. *)
Variable apiUrl : string.

(** How [URLSearchParams] writes a name or a value in a query string. *)
Variable encode : string -> string.

(** The entries copied into [validParams]. *)
Definition validParams (params : list (string * option string)) : list (string * string) :=
  flat_map (fun p => match snd p with
                     | Some v => [(fst p, v)]
                     | None => []
                     end) params.

(** [new URLSearchParams(validParams).toString()] *)
Definition queryOf (valid : list (string * string)) : string :=
  Js.join "&" (map (fun p => encode (fst p) ++ "=" ++ encode (snd p))%string valid).

Definition urlOf (path : string) (params : option (list (string * option string))) : string :=
  let normalizedPath := if Js.startsWith path "/" then path else ("/" ++ path)%string in
  let url := (apiUrl ++ normalizedPath)%string in
  match params with
  | Some params =>
      let query := queryOf (validParams params) in
      if Js.truthy query then (url ++ "?" ++ query)%string else url
  | None => url
  end.

End Url.

End Http.

(** ** Stripping HTML

    [WeeekClient.stripHtml].  A string is a sequence of code units below
    256. *)

Module Html.

(** [s.replace(/<[^>]*>?/gm, '')]: a match starts at a [<] and runs up to
    and including the next [>], or to the end of the string when there is
    none.  [inTag] says that the scan is inside a match. *)
Fixpoint stripTags (inTag : bool) (s : string) : string :=
  match s with
  | EmptyString => EmptyString
  | String c s' =>
      if inTag then
        if Ascii.eqb c ">" then stripTags false s' else stripTags true s'
      else
        if Ascii.eqb c "<" then stripTags true s' else String c (stripTags false s')
  end.

(** [s.replace(/pat/g, rep)] for a literal, non-empty [pat]: the matches
    are taken from left to right and do not overlap.  [skip] counts the
    characters of the current match that are still to be passed over. *)
Fixpoint replaceFrom (pat rep : string) (skip : nat) (s : string) : string :=
  match s with
  | EmptyString => EmptyString
  | String c s' =>
      match skip with
      | S k => replaceFrom pat rep k s'
      | O =>
          if Js.startsWith s pat
          then (rep ++ replaceFrom pat rep (String.length pat - 1) s')%string
          else String c (replaceFrom pat rep 0 s')
      end
  end.

Definition replaceAll (pat rep s : string) : string := replaceFrom pat rep 0 s.

(** The white space and line terminators of JavaScript among the code
    units below 256. *)
Definition isSpace (c : ascii) : bool :=
  let n := nat_of_ascii c in
  ((9 <=? n)%nat && (n <=? 13)%nat) || (n =? 32)%nat || (n =? 160)%nat.

Fixpoint trimStart (s : string) : string :=
  match s with
  | EmptyString => EmptyString
  | String c s' => if isSpace c then trimStart s' else s
  end.

Fixpoint trimEnd (s : string) : string :=
  match s with
  | EmptyString => EmptyString
  | String c s' =>
      match trimEnd s' with
      | EmptyString => if isSpace c then EmptyString else String c EmptyString
      | rest => String c rest
      end
  end.

(** [s.trim()] *)
Definition trim (s : string) : string := trimEnd (trimStart s).

Definition stripHtml (html : option string) : string :=
  match Js.given html with
  | None => EmptyString
  | Some html =>
      trim (replaceAll "&quot;" Js.dquote
              (replaceAll "&nbsp;" " " (stripTags false html)))
  end.

(** The characters of a string. *)
Definition chars (s : string) : list ascii := list_ascii_of_string s.

End Html.

(** ** The command-line tool

    The parts of the commands that compute something: the tags and the
    endpoints of the API specification, the subtask titles of [create], and
    the columns of [board] with their tasks. *)

Module Cli.

(** An element of the specification's [tags]: an object that may have a
    [name], or a bare string. *)
Inductive TagDecl :=
| TagObject (name : option string)
| TagString (s : string).

Record Operation := {
  op_tags : option (list string);
  op_summary : option string
}.

(** A path item: its keys with their values, [None] for a value that is
    falsy. *)
Definition PathItem := list (string * option Operation).

Record ApiSpec := {
  spec_tags : option (list TagDecl);
  spec_paths : option (list (string * PathItem))
}.

(** An element of the result of [getTags]: a string, or a tag object that
    has no name, known by its position in [tags]. *)
Inductive TagValue :=
| Name (s : string)
| Unnamed (index : nat).

Definition sameValue (a b : TagValue) : bool :=
  match a, b with
  | Name s, Name s' => String.eqb s s'
  | Unnamed i, Unnamed i' => Nat.eqb i i'
  | _, _ => false
  end.

(** The string [sort] compares an element by. *)
Definition display (v : TagValue) : string :=
  match v with
  | Name s => s
  | Unnamed _ => "[object Object]"
  end.

(** [tags.map(t => t.name || t)]; [index] is the position of the first
    element. *)
Fixpoint tagValues (index : nat) (tags : list TagDecl) : list TagValue :=
  match tags with
  | [] => []
  | t :: tags' =>
      match t with
      | TagObject name =>
          match Js.given name with
          | Some n => Name n
          | None => Unnamed index
          end
      | TagString s => Name s
      end :: tagValues (S index) tags'
  end.

(** The elements of [new Set(l)] in the order of its iteration, [seen]
    being in the set already. *)
Fixpoint uniqFrom (seen l : list TagValue) : list TagValue :=
  match l with
  | [] => []
  | v :: l' =>
      if existsb (sameValue v) seen then uniqFrom seen l'
      else v :: uniqFrom (v :: seen) l'
  end.

Definition uniq (l : list TagValue) : list TagValue := uniqFrom [] l.

(** [l.sort()]: the elements in the order of their strings, those with
    equal strings in their former order. *)
Fixpoint insert (v : TagValue) (sorted : list TagValue) : list TagValue :=
  match sorted with
  | [] => [v]
  | x :: rest =>
      if String.leb (display v) (display x) then v :: sorted else x :: insert v rest
  end.

Fixpoint sort (l : list TagValue) : list TagValue :=
  match l with
  | [] => []
  | v :: l' => insert v (sort l')
  end.

(** The tags of the operations of a path item. *)
Definition operationTags (pathItem : PathItem) : list TagValue :=
  flat_map (fun entry => match snd entry with
                         | Some operation =>
                             match op_tags operation with
                             | Some tags => map Name tags
                             | None => []
                             end
                         | None => []
                         end) pathItem.

Definition getTags (spec : ApiSpec) : list TagValue :=
  let tags := match spec_tags spec with Some tags => tags | None => [] end in
  let pathTags :=
    uniq (match spec_paths spec with
          | Some paths => flat_map (fun entry => operationTags (snd entry)) paths
          | None => []
          end) in
  sort (uniq (tagValues 0 tags ++ pathTags)).

Record Endpoint := {
  ep_path : string;
  ep_method : string;
  ep_summary : string
}.

(** The endpoints the [endpoints] command collects for a tag; [None] when
    the specification has no [paths] ([Object.entries] throws). *)
Definition endpoints (spec : ApiSpec) (tag : string) : option (list Endpoint) :=
  match spec_paths spec with
  | None => None
  | Some paths =>
      Some (flat_map (fun entry =>
              flat_map (fun m =>
                match snd m with
                | Some operation =>
                    match op_tags operation with
                    | Some tags =>
                        if existsb (String.eqb tag) tags
                        then [ {| ep_path := fst entry; ep_method := fst m;
                                  ep_summary := Js.or_else (op_summary operation)
                                                           "No summary" |} ]
                        else []
                    | None => []
                    end
                | None => []
                end) (snd entry)) paths)
  end.

(** [s.split(',')], for the separator [sep]. *)
Fixpoint split (sep : ascii) (s : string) : list string :=
  match s with
  | EmptyString => [EmptyString]
  | String c s' =>
      if Ascii.eqb c sep then EmptyString :: split sep s'
      else match split sep s' with
           | field :: fields => String c field :: fields
           | [] => [String c EmptyString]
           end
  end.

(** The subtask titles of [create]:
    [options.subtasks ? options.subtasks.split(',').map(s => s.trim()) : []] *)
Definition subtaskTitles (subtasks : option string) : list string :=
  match Js.given subtasks with
  | Some titles => map Html.trim (split "," titles)
  | None => []
  end.

(** [t.boardColumnId === col.id] *)
Definition inColumn (col : Column) (t : Task) : bool :=
  match task_boardColumnId t with
  | Some c => Pos.eqb c (column_id col)
  | None => false
  end.

(** What the [board] command prints: the columns in order, each with the
    tasks it filters for it. *)
Definition boardView (board : BoardContext) : list (Column * list Task) :=
  map (fun col => (col, filter (inColumn col) (ctx_tasks board))) (ctx_columns board).

(** The task is in one of the columns. *)
Definition inSomeColumn (columns : list Column) (t : Task) : bool :=
  existsb (fun col => inColumn col t) columns.

End Cli.

(** ** More sample data *)

Module Sample.

Local Open Scope positive_scope.

(** A remote that cannot be reached. *)
Definition offline (r : Request) (w : unit) : Reply * unit :=
  (Failed (FetchRejected "network down"), w).

(** The sample workspace with the listing of columns out of order. *)
Definition noColumns (r : Request) (w : Demo.World) : Reply * Demo.World :=
  match r with
  | GET_board_columns _ => (Failed Demo.serverError, w)
  | _ => Demo.transport r w
  end.

(** The sample workspace, every board of which lists the columns
    "Not done" and "Done", in this order. *)
Definition columns : list Column :=
  [Demo.column 1 "Not done" 10; Demo.column 2 "Done" 10].

Definition twoColumns (r : Request) (w : Demo.World) : Reply * Demo.World :=
  match r with
  | GET_board_columns _ => (Replied (ColumnsBody (Some columns)), w)
  | _ => Demo.transport r w
  end.

(** The sample workspace with both listings of a board out of order, each
    with a failure of its own, and a network on which the failure of the
    later request arrives first. *)
Definition columnsDown : TransportFailure :=
  HttpStatus 503%Z "Service Unavailable" "columns down".

Definition tasksDown : TransportFailure :=
  HttpStatus 503%Z "Service Unavailable" "tasks down".

Definition bothDown (r : Request) (w : Demo.World) : Reply * Demo.World :=
  match r with
  | GET_board_columns _ => (Failed columnsDown, w)
  | GET_tasks _ => (Failed tasksDown, w)
  | _ => Demo.transport r w
  end.

Definition laterFirst : Network Demo.World := fun _ => true.

Definition release : Board := Demo.listed 10 "Release 2.0" 1 "Apps".

Definition task (i : Id) (column : option Id) : Task :=
  {| task_id := Some i; task_title := None; task_boardId := Some 10;
     task_boardColumnId := column; task_parentId := None |}.

(** A board with two columns and four tasks, of which one has no column
    and one a column the board does not list. *)
Definition context : BoardContext :=
  {| ctx_board := release;
     ctx_columns := columns;
     ctx_tasks := [task 1 (Some 2); task 2 None; task 3 (Some 1); task 4 (Some 9)] |}.

Definition operation (tags : list string) : option Cli.Operation :=
  Some {| Cli.op_tags := Some tags; Cli.op_summary := None |}.

(** A specification that declares the tags "Task" and "Board" and whose
    operations use "Task", "Project" and "Attachment". *)
Definition api : Cli.ApiSpec :=
  {| Cli.spec_tags := Some [Cli.TagObject (Some "Task"); Cli.TagString "Board"];
     Cli.spec_paths :=
       Some [("/tm/tasks", [("get", operation ["Task"; "Project"]);
                            ("parameters", None)]);
             ("/tm/tasks/{id}/files", [("post", operation ["Attachment"; "Task"])])] |}.

End Sample.

Create HintDb quiet.

(** Case analysis on the membership of an exchange in an explicit trace. *)
Ltac in_trace :=
  repeat match goal with
  | H : In _ [] |- _ => destruct H
  | H : In _ (_ :: _) |- _ => destruct H as [H|H]
  | H : _ \/ _ |- _ => destruct H as [H|H]
  | H : False |- _ => destruct H
  | H : @eq Exchange (_, _) (_, _) |- _ => inversion H; subst; clear H
  | H : @eq (Request * Reply) (_, _) (_, _) |- _ => inversion H; subst; clear H
  end.

(** * Properties *)

(** ** Strings *)

Module JsFacts.

Lemma startsWith_refl s : Js.startsWith s s = true.
Proof.
  induction s as [|c s IH]; simpl; [reflexivity|].
  rewrite Ascii.eqb_refl. exact IH.
Qed.

Lemma includes_refl s : Js.includes s s = true.
Proof.
  destruct s; simpl; [reflexivity|].
  rewrite Ascii.eqb_refl, startsWith_refl. reflexivity.
Qed.







Lemma append_assoc (a b c : string) : ((a ++ b) ++ c = a ++ b ++ c)%string.
Proof. induction a as [|x a IH]; simpl; [reflexivity|]. now rewrite IH. Qed.


End JsFacts.

(** ** Traces *)

Lemma quiet_app banned t1 t2 :
  quiet banned (t1 ++ t2) <-> quiet banned t1 /\ quiet banned t2.
Proof. unfold quiet. rewrite existsb_app. apply orb_false_iff. Qed.

Lemma quiet_cons banned x t :
  quiet banned (x :: t) <-> banned (fst x) = false /\ quiet banned t.
Proof. unfold quiet. simpl. apply orb_false_iff. Qed.

Lemma quiet_In banned t r reply :
  quiet banned t -> In (r, reply) t -> banned r = false.
Proof.
  induction t as [|x t IH]; intros Hq Hin; [destruct Hin|].
  apply quiet_cons in Hq. destruct Hq as [Hx Ht].
  destruct Hin as [->|Hin]; [exact Hx|exact (IH Ht Hin)].
Qed.

(** The first banned exchange of a trace splits it in one way only. *)
Lemma first_banned_unique banned (a a' b b' : list Exchange) x x' :
  quiet banned a -> quiet banned a' ->
  banned (fst x) = true -> banned (fst x') = true ->
  a ++ x :: b = a' ++ x' :: b' ->
  a = a' /\ x = x' /\ b = b'.
Proof.
  revert a'. induction a as [|y a IH]; intros [|y' a'] Ha Ha' Hx Hx' E; simpl in E.
  - injection E as -> ->. auto.
  - injection E as -> _. apply quiet_cons in Ha'. destruct Ha'. congruence.
  - injection E as -> _. apply quiet_cons in Ha. destruct Ha. congruence.
  - injection E as -> E. apply quiet_cons in Ha. apply quiet_cons in Ha'.
    destruct Ha as [_ Ha]. destruct Ha' as [_ Ha'].
    destruct (IH a' Ha Ha' Hx Hx' E) as (-> & -> & ->). auto.
Qed.

(** A failed exchange that follows answered ones is the only failed one. *)
Lemma first_failure_unique (a t2 t3 : list Exchange) x x' :
  Forall answered a -> ~ answered x ->
  a ++ [x'] = t2 ++ x :: t3 ->
  t2 = a /\ x = x' /\ t3 = [].
Proof.
  intros Ha Hx. revert t2. induction Ha as [|y a Hy Ha IH]; intros [|y' t2] E; simpl in E.
  - injection E as -> <-. auto.
  - injection E as _ E. destruct t2; discriminate.
  - injection E as -> _. contradiction.
  - injection E as -> E. destruct (IH t2 E) as (-> & -> & ->). auto.
Qed.

(** ** Computations that stay clear of a class of requests *)

Section Quiet.

Context {World : Type} {network : Network World}.
Variable banned : Request -> bool.

Lemma Quiet_ret A (a : A) : Quiet banned (@ret World A a).
Proof. intros w. reflexivity. Qed.

Lemma Quiet_throw A e : Quiet banned (@throw World A e).
Proof. intros w. reflexivity. Qed.

Lemma Quiet_bind A B (m : @Async World A) (k : A -> @Async World B) :
  Quiet banned m -> (forall a, Quiet banned (k a)) -> Quiet banned (bind m k).
Proof.
  intros Hm Hk w. specialize (Hm w). unfold bind.
  destruct (m w) as [[[a|e] w1] t1]; simpl in *; [|exact Hm].
  specialize (Hk a w1). destruct (k a w1) as [[o w2] t2]; simpl in *.
  apply quiet_app. auto.
Qed.

Lemma Quiet_try_catch A (m : @Async World A) h :
  Quiet banned m -> (forall e, Quiet banned (h e)) -> Quiet banned (try_catch m h).
Proof.
  intros Hm Hh w. specialize (Hm w). unfold try_catch.
  destruct (m w) as [[[a|e] w1] t1]; simpl in *; [exact Hm|].
  specialize (Hh e w1). destruct (h e w1) as [[o w2] t2]; simpl in *.
  apply quiet_app. auto.
Qed.

Lemma Quiet_all2 A B (ma : @Async World A) (mb : @Async World B) :
  Quiet banned ma -> Quiet banned mb -> Quiet banned (all2 ma mb).
Proof.
  intros Ha Hb w. specialize (Ha w). unfold all2.
  destruct (ma w) as [[oa w1] t1]; simpl in *.
  specialize (Hb w1). destruct (mb w1) as [[ob w2] t2]; simpl in *.
  apply quiet_app. auto.
Qed.

Lemma Quiet_all A (ms : list (@Async World A)) :
  Forall (Quiet banned) ms -> Quiet banned (all ms).
Proof.
  induction 1 as [|m ms Hm _ IH]; intros w; simpl; [reflexivity|].
  specialize (Hm w). destruct (m w) as [[o w1] t1]; simpl in *.
  specialize (IH w1). destruct (all ms w1) as [[os w2] t2]; simpl in *.
  apply quiet_app. auto.
Qed.

Lemma Quiet_request (transport : Request -> World -> Reply * World) r :
  banned r = false -> Quiet banned (request transport r).
Proof.
  intros Hr w. unfold request.
  destruct (transport r w) as [[body|f] w1]; unfold quiet; simpl; rewrite Hr; reflexivity.
Qed.

End Quiet.

#[local] Hint Resolve Quiet_ret Quiet_throw Quiet_bind Quiet_try_catch Quiet_all2
  Quiet_request : quiet.

(** ** The client's methods *)

Section ClientFacts.

Context {World : Type} {network : Network World}.
Variable transport : Request -> World -> Reply * World.
Variable toLowerCase : string -> string.
Variable parseInt : string -> Js.Num.

(** *** One request *)

Lemma request_run r w :
  request transport r w =
    (match fst (transport r w) with
     | Replied body => Returned body
     | Failed f => Thrown (RequestFailed f)
     end, snd (transport r w), [(r, fst (transport r w))]).
Proof. unfold request. destruct (transport r w) as [[body|f] w1]; reflexivity. Qed.

(** *** The fan-out over projects *)

Lemma boardsBranch_run p w :
  boardsBranch transport p w =
    (Returned (contribution p (fst (transport (GET_boards (project_id p)) w))),
     snd (transport (GET_boards (project_id p)) w),
     [(GET_boards (project_id p), fst (transport (GET_boards (project_id p)) w))]).
Proof.
  unfold boardsBranch, try_catch, getBoardsOf, bind. rewrite request_run.
  destruct (transport (GET_boards (project_id p)) w) as [[data|f] w1]; reflexivity.
Qed.

Lemma answers_length requests : forall w,
  length (fst (answers transport requests w)) = length requests.
Proof.
  induction requests as [|r requests IH]; intros w; simpl; [reflexivity|].
  destruct (transport r w) as [reply w1]. specialize (IH w1).
  destruct (answers transport requests w1) as [replies w2]. simpl in *. congruence.
Qed.

Lemma all_boardsBranch_run ps : forall w,
  let requests := map (fun p => GET_boards (project_id p)) ps in
  let replies := fst (answers transport requests w) in
  all (map (boardsBranch transport) ps) w =
    (Returned (map (fun pr => contribution (fst pr) (snd pr)) (combine ps replies)),
     snd (answers transport requests w),
     combine requests replies).
Proof.
  cbv zeta. induction ps as [|p ps IH]; intros w; [reflexivity|].
  simpl. rewrite boardsBranch_run.
  destruct (transport (GET_boards (project_id p)) w) as [reply w1]. simpl.
  rewrite IH.
  destruct (answers transport (map (fun p0 => GET_boards (project_id p0)) ps) w1)
    as [replies w2].
  reflexivity.
Qed.

(** What a project contributes, written out. *)
Lemma contribution_spelled p reply :
  contribution p reply =
    match reply with
    | Replied (BoardsBody (Some boards)) =>
        map (fun b => {| board_id := board_id b; board_name := board_name b;
                         board_projectId := board_projectId b;
                         board_projectName := Some (project_name p) |}) boards
    | _ => []
    end.
Proof. destruct reply as [[| [boards|] | | | | |]|f]; reflexivity. Qed.

(** C5. [getBoards()] without a project scope, once the projects are
    listed: it issues one boards request per project, in listing order, and
    returns (it does not throw) the concatenation, in that order, of what
    each project contributes: the boards that the reply to its request
    lists, each with its id, name and project id as listed and with the
    project's name as [projectName]; nothing when the request failed or
    the reply lists no boards. *)
Theorem getBoards_aggregates w data w1 :
  transport GET_projects w = (Replied data, w1) ->
  let projects := match data with
                  | ProjectsBody (Some listed) => listed
                  | _ => []
                  end in
  let requests := map (fun p => GET_boards (project_id p)) projects in
  let replies := fst (answers transport requests w1) in
  length replies = length projects /\
  getBoards transport None w =
    (Returned
       (concat
          (map (fun pr : Project * Reply =>
                  match snd pr with
                  | Replied (BoardsBody (Some boards)) =>
                      map (fun b => {| board_id := board_id b;
                                       board_name := board_name b;
                                       board_projectId := board_projectId b;
                                       board_projectName := Some (project_name (fst pr)) |})
                          boards
                  | _ => []
                  end)
               (combine projects replies))),
     snd (answers transport requests w1),
     (GET_projects, Replied data) :: combine requests replies).
Proof.
  intros Hprojects projects requests replies.
  change projects with (projectsOf data) in *. split.
  - unfold replies, requests. rewrite answers_length. apply length_map.
  - unfold getBoards, getProjects, bind. rewrite request_run, Hprojects. simpl.
    rewrite all_boardsBranch_run. simpl. rewrite app_nil_r.
    fold requests. fold replies. do 2 f_equal. f_equal. f_equal.
    apply map_ext. intros [p reply]. apply contribution_spelled.
Qed.

(** *** Resolving a board by name *)

Lemma find_hd_filter A (f : A -> bool) l : find f l = hd_error (filter f l).
Proof.
  induction l as [|x l IH]; simpl; [reflexivity|].
  destruct (f x); [reflexivity|exact IH].
Qed.

Lemma nameEquals_spec queryLower b :
  nameEquals toLowerCase queryLower b = true <-> toLowerCase (board_name b) = queryLower.
Proof. apply String.eqb_eq. Qed.

(** A name equal to the query also contains it. *)
Lemma nameEquals_includes queryLower b :
  nameEquals toLowerCase queryLower b = true ->
  nameIncludes toLowerCase queryLower b = true.
Proof.
  intros H. apply nameEquals_spec in H. unfold nameIncludes. rewrite H.
  apply JsFacts.includes_refl.
Qed.

Lemma findBoard_run query w :
  findBoard transport toLowerCase query w =
    match getBoards transport None w with
    | (Returned boards, w', t) => (Returned (boardMatches toLowerCase query boards), w', t)
    | (Thrown e, w', t) => (Thrown e, w', t)
    end.
Proof.
  unfold findBoard, bind, boardMatches.
  destruct (getBoards transport None w) as [[[boards|e] w'] t]; [|reflexivity].
  destruct (find _ boards); simpl; rewrite app_nil_r; reflexivity.
Qed.

(** C3. [findBoard(q)] over the boards [C] that [getBoards()] returned:
    when exactly one board's name equals [q] case-insensitively, the
    result is that board alone (whatever other names contain [q]); when no
    name equals [q] and at least two contain it, the result is all the
    boards whose name contains [q], in the order of [C]; when no name
    contains [q], the result is empty. *)
Theorem findBoard_resolves query w C w' t :
  getBoards transport None w = (Returned C, w', t) ->
  let q := toLowerCase query in
  (forall b, filter (nameEquals toLowerCase q) C = [b] ->
     findBoard transport toLowerCase query w = (Returned [b], w', t)) /\
  (filter (nameEquals toLowerCase q) C = [] ->
   2 <= length (filter (nameIncludes toLowerCase q) C) ->
     findBoard transport toLowerCase query w =
       (Returned (filter (nameIncludes toLowerCase q) C), w', t)) /\
  (filter (nameIncludes toLowerCase q) C = [] ->
     findBoard transport toLowerCase query w = (Returned [], w', t)).
Proof.
  intros Hboards q. rewrite findBoard_run, Hboards. unfold boardMatches. fold q.
  rewrite find_hd_filter. repeat split.
  - intros b Hone. rewrite Hone. reflexivity.
  - intros Hnone _. rewrite Hnone. reflexivity.
  - intros Hnone.
    destruct (filter (nameEquals toLowerCase q) C) as [|b rest] eqn:Hexact; simpl.
    + rewrite Hnone. reflexivity.
    + assert (Hb : In b (filter (nameEquals toLowerCase q) C))
        by (rewrite Hexact; left; reflexivity).
      apply filter_In in Hb. destruct Hb as [Hin Heq].
      apply nameEquals_includes in Heq.
      assert (Hsub : In b (filter (nameIncludes toLowerCase q) C))
        by (apply filter_In; auto).
      rewrite Hnone in Hsub. destruct Hsub.
Qed.

(** *** A board with its columns and tasks *)

Lemma all2_columns_tasks_run boardId w :
  let r1 := transport (GET_board_columns boardId) w in
  let r2 := transport (GET_tasks (Some boardId)) (snd r1) in
  all2 (getColumns transport boardId) (getTasks transport (Some boardId)) w =
    (match fst r1, fst r2 with
     | Replied c, Replied t => Returned (boardColumnsOf c, tasksOf t)
     | Failed f, Replied _ => Thrown (RequestFailed f)
     | Replied _, Failed f => Thrown (RequestFailed f)
     | Failed f1, Failed f2 =>
         Thrown (RequestFailed (if overtakes (snd r2) then f2 else f1))
     end, snd r2,
     [(GET_board_columns boardId, fst r1); (GET_tasks (Some boardId), fst r2)]).
Proof.
  cbv zeta. unfold all2, getColumns, getTasks, bind, request.
  destruct (transport (GET_board_columns boardId) w) as [[c|f] w1]; simpl;
    destruct (transport (GET_tasks (Some boardId)) w1) as [[t|f'] w2]; simpl;
    try destruct (overtakes w2); reflexivity.
Qed.

(** What [getBoardWithContext] does once [findBoard] has answered. *)
Lemma getBoardWithContext_run boardName w :
  getBoardWithContext transport toLowerCase boardName w =
    match findBoard transport toLowerCase boardName w with
    | (Returned [], w1, t1) => (Thrown (BoardNotFound boardName), w1, t1)
    | (Returned [board], w1, t1) =>
        let r1 := transport (GET_board_columns (board_id board)) w1 in
        let r2 := transport (GET_tasks (Some (board_id board))) (snd r1) in
        (match fst r1, fst r2 with
         | Replied c, Replied t =>
             Returned {| ctx_board := board; ctx_columns := boardColumnsOf c;
                         ctx_tasks := tasksOf t |}
         | Failed f, Replied _ => Thrown (RequestFailed f)
         | Replied _, Failed f => Thrown (RequestFailed f)
         | Failed f1, Failed f2 =>
             Thrown (RequestFailed (if overtakes (snd r2) then f2 else f1))
         end, snd r2,
         t1 ++ [(GET_board_columns (board_id board), fst r1);
                (GET_tasks (Some (board_id board)), fst r2)])
    | (Returned ((_ :: _ :: _) as matches), w1, t1) =>
        (Thrown (MultipleBoards matches), w1, t1)
    | (Thrown e, w1, t1) => (Thrown e, w1, t1)
    end.
Proof.
  unfold getBoardWithContext. unfold bind at 1.
  destruct (findBoard transport toLowerCase boardName w) as [[[matches|e] w1] t1];
    [|reflexivity].
  destruct matches as [|board [|board' rest]].
  - unfold throw. rewrite app_nil_r. reflexivity.
  - unfold bind. rewrite all2_columns_tasks_run. cbv zeta.
    destruct (fst (transport (GET_board_columns (board_id board)) w1));
      destruct (fst (transport (GET_tasks (Some (board_id board))) _));
      simpl; rewrite ?app_nil_r; reflexivity.
  - unfold throw. rewrite app_nil_r. reflexivity.
Qed.

(** C9. When two or more boards have a name equal to the query
    case-insensitively, [findBoard] returns the first of them in listing
    order, alone; resolving the board by that name then never reports an
    ambiguity. *)
Theorem findBoard_duplicate_exact query w C w' t b b' rest :
  getBoards transport None w = (Returned C, w', t) ->
  filter (nameEquals toLowerCase (toLowerCase query)) C = b :: b' :: rest ->
  findBoard transport toLowerCase query w = (Returned [b], w', t) /\
  (exists before after, C = before ++ b :: after /\
     forallb (fun x => negb (nameEquals toLowerCase (toLowerCase query) x)) before = true) /\
  (forall matches,
     fst (fst (getBoardWithContext transport toLowerCase query w))
       <> Thrown (MultipleBoards matches)).
Proof.
  intros Hboards Hexact.
  assert (Hfind : findBoard transport toLowerCase query w = (Returned [b], w', t)).
  { rewrite findBoard_run, Hboards. unfold boardMatches.
    rewrite find_hd_filter, Hexact. reflexivity. }
  split; [exact Hfind|]. split.
  - clear Hboards Hfind. revert Hexact. induction C as [|x C IH]; simpl; [discriminate|].
    destruct (nameEquals toLowerCase (toLowerCase query) x) eqn:Ex.
    + intros E. injection E as -> _. exists [], C. split; reflexivity.
    + intros E. destruct (IH E) as (before & after & -> & Hbefore).
      exists (x :: before), after. split; [reflexivity|]. simpl. rewrite Ex. exact Hbefore.
  - intros matches. rewrite getBoardWithContext_run, Hfind. cbv zeta.
    destruct (fst (transport (GET_board_columns (board_id b)) w'));
      destruct (fst (transport (GET_tasks (Some (board_id b))) _)); simpl; discriminate.
Qed.

(** *** Creating one task *)

Lemma createTask_run data w :
  let r := transport (POST_tasks (payloadOf data)) w in
  createTask transport data w =
    (match fst r with
     | Replied body => Returned (taskOf body)
     | Failed f => Thrown (RequestFailed f)
     end, snd r, [(POST_tasks (payloadOf data), fst r)]).
Proof.
  cbv zeta. unfold createTask, bind, request.
  destruct (transport (POST_tasks (payloadOf data)) w) as [[body|f] w1]; reflexivity.
Qed.

(** C10. [createTask(data)] issues exactly one request, a task creation.
    Its payload's [type] is ['action'] unless the data carries a [type] of
    its own; and when the data carries a [boardId], the payload's
    [locations] is an array of exactly one element, holding the data's
    [projectId] (0 when there is none), its [boardId] and its
    [boardColumnId]. *)
Theorem createTask_payload data w :
  exists payload reply,
    snd (createTask transport data w) = [(POST_tasks payload, reply)] /\
    td_type payload = Some (match td_type data with
                            | Some type => type
                            | None => "action"
                            end) /\
    (forall boardId, td_boardId data = Some boardId ->
       td_locations payload =
         Some [ {| loc_projectId := match td_projectId data with
                                    | Some projectId => Zpos projectId
                                    | None => 0%Z
                                    end;
                   loc_boardId := boardId;
                   loc_boardColumnId := td_boardColumnId data |} ]).
Proof.
  exists (payloadOf data), (fst (transport (POST_tasks (payloadOf data)) w)).
  rewrite createTask_run. repeat split.
  intros boardId Hboard. simpl. rewrite Hboard. reflexivity.
Qed.

(** *** Moving a task to a column named by the caller *)

Lemma moveTaskToColumn_run taskId columnName w :
  moveTaskToColumn transport toLowerCase taskId columnName w =
    let r0 := transport (GET_task taskId) w in
    match fst r0 with
    | Failed f => (Thrown (RequestFailed f), snd r0, [(GET_task taskId, Failed f)])
    | Replied body =>
        match taskOf body with
        | None => (Thrown TaskNotFound, snd r0, [(GET_task taskId, Replied body)])
        | Some task =>
            match task_boardId task with
            | None => (Thrown TaskNotOnBoard, snd r0, [(GET_task taskId, Replied body)])
            | Some boardId =>
                let r1 := transport (GET_board_columns boardId) (snd r0) in
                match fst r1 with
                | Failed f =>
                    (Thrown (RequestFailed f), snd r1,
                     [(GET_task taskId, Replied body);
                      (GET_board_columns boardId, Failed f)])
                | Replied data =>
                    match find (columnIncludes toLowerCase (toLowerCase columnName))
                               (boardColumnsOf data) with
                    | None =>
                        (Thrown (ColumnNotOnBoard columnName), snd r1,
                         [(GET_task taskId, Replied body);
                          (GET_board_columns boardId, Replied data)])
                    | Some col =>
                        let r2 := transport (POST_board_column taskId (column_id col))
                                            (snd r1) in
                        (match fst r2 with
                         | Replied moved => Returned moved
                         | Failed f => Thrown (RequestFailed f)
                         end, snd r2,
                         [(GET_task taskId, Replied body);
                          (GET_board_columns boardId, Replied data);
                          (POST_board_column taskId (column_id col), fst r2)])
                    end
                end
            end
        end
    end.
Proof.
  cbv zeta.
  unfold moveTaskToColumn, getTask, findColumn, getColumns, moveTask, bind, request, throw.
  destruct (transport (GET_task taskId) w) as [[body|f] w1]; simpl; [|reflexivity].
  destruct (taskOf body) as [task|]; [|reflexivity].
  destruct (task_boardId task) as [boardId|]; [|reflexivity].
  destruct (transport (GET_board_columns boardId) w1) as [[data|f] w2]; simpl; [|reflexivity].
  destruct (find _ (boardColumnsOf data)) as [col|]; [|reflexivity].
  destruct (transport (POST_board_column taskId (column_id col)) w2) as [[moved|f] w3];
    reflexivity.
Qed.

(** C7. [moveTaskToColumn(taskId, columnName)]: a move is issued only for
    the first column, among those the remote lists for the task's current
    board, whose name contains the query; no other board's columns are ever
    fetched, so a column of another board with the same name cannot be
    chosen (the chosen column carries the task's board id whenever the
    listed columns do).  When the task has no board, or no listed column
    matches, the operation throws and issues no move. *)
Theorem moveTaskToColumn_on_task_board taskId columnName w o w' t :
  moveTaskToColumn transport toLowerCase taskId columnName w = (o, w', t) ->
  (forall r reply, In (r, reply) t -> mutating r = true ->
     exists body task boardId data col,
       In (GET_task taskId, Replied body) t /\
       taskOf body = Some task /\
       task_boardId task = Some boardId /\
       In (GET_board_columns boardId, Replied data) t /\
       (forall boardId' reply', In (GET_board_columns boardId', reply') t ->
          boardId' = boardId) /\
       find (columnIncludes toLowerCase (toLowerCase columnName)) (boardColumnsOf data)
         = Some col /\
       In col (boardColumnsOf data) /\
       (Forall (fun c => column_boardId c = Some boardId) (boardColumnsOf data) ->
          column_boardId col = Some boardId) /\
       r = POST_board_column taskId (column_id col)) /\
  (forall body task,
     In (GET_task taskId, Replied body) t -> taskOf body = Some task ->
     task_boardId task = None ->
     o = Thrown TaskNotOnBoard /\ noMutation t) /\
  (forall body task boardId data,
     In (GET_task taskId, Replied body) t -> taskOf body = Some task ->
     task_boardId task = Some boardId ->
     In (GET_board_columns boardId, Replied data) t ->
     find (columnIncludes toLowerCase (toLowerCase columnName)) (boardColumnsOf data) = None ->
     o = Thrown (ColumnNotOnBoard columnName) /\ noMutation t).
Proof.
  intros Hrun. rewrite moveTaskToColumn_run in Hrun. cbv zeta in Hrun.
  destruct (transport (GET_task taskId) w) as [[body|f] w1]; simpl in Hrun.
  2: { inversion Hrun; subst. repeat split; intros; in_trace; discriminate. }
  destruct (taskOf body) as [task|] eqn:Htask.
  2: { inversion Hrun; subst. repeat split; intros; in_trace; try discriminate; congruence. }
  destruct (task_boardId task) as [boardId|] eqn:Hboard.
  2: { inversion Hrun; subst. repeat split; intros; in_trace; try discriminate;
       try congruence; reflexivity. }
  destruct (transport (GET_board_columns boardId) w1) as [[data|f] w2]; simpl in Hrun.
  2: { inversion Hrun; subst. repeat split; intros; in_trace; try discriminate; congruence. }
  destruct (find _ (boardColumnsOf data)) as [col|] eqn:Hfind.
  2: { inversion Hrun; subst. repeat split; intros; in_trace; try discriminate;
       try congruence; reflexivity. }
  inversion Hrun; subst. clear Hrun. repeat split.
  - intros r reply Hin Hmut. in_trace; try discriminate.
    exists body, task, boardId, data, col.
    destruct (find_some _ _ Hfind) as [Hcol _].
    repeat split; simpl; auto.
    + intros boardId' reply' Hin. in_trace. reflexivity.
    + intros Hall. rewrite Forall_forall in Hall. apply Hall, Hcol.
  - intros; in_trace; congruence.
  - intros; in_trace; congruence.
  - intros; in_trace; congruence.
  - intros; in_trace; congruence.
Qed.

(** *** The phases of [createTaskDetailed] *)

Lemma createTaskDetailed_phases spec :
  createTaskDetailed transport toLowerCase parseInt spec =
    (' (boardId, boardColumnId, projectId) <- resolveBoard transport toLowerCase spec ;;
     assigneeId <- resolveAssignee transport toLowerCase spec ;;
     mainTask <- createTask transport
                   (mainData parseInt spec projectId boardId boardColumnId assigneeId) ;;
     createSubtasks transport (subtasks spec) mainTask
       projectId boardId boardColumnId assigneeId ;;;
     ret mainTask).
Proof. reflexivity. Qed.

Lemma resolveBoard_run spec w :
  resolveBoard transport toLowerCase spec w =
    match Js.given (boardName spec) with
    | None => (Returned (None, None, None), w, [])
    | Some boardName =>
        match getBoardWithContext transport toLowerCase boardName w with
        | (Thrown e, w1, t1) => (Thrown e, w1, t1)
        | (Returned board, w1, t1) =>
            (match Js.given (columnName spec) with
             | Some columnName =>
                 match find (columnIncludes toLowerCase (toLowerCase columnName))
                            (ctx_columns board) with
                 | None => Thrown (ColumnNotFound columnName boardName)
                 | Some col =>
                     Returned (Some (board_id (ctx_board board)), Some (column_id col),
                               board_projectId (ctx_board board))
                 end
             | None =>
                 Returned (Some (board_id (ctx_board board)),
                           option_map column_id (hd_error (ctx_columns board)),
                           board_projectId (ctx_board board))
             end, w1, t1)
        end
    end.
Proof.
  unfold resolveBoard. destruct (Js.given (boardName spec)) as [bn|]; [|reflexivity].
  unfold bind. destruct (getBoardWithContext transport toLowerCase bn w) as [[[board|e] w1] t1];
    [|reflexivity].
  destruct (Js.given (columnName spec)) as [cn|].
  - destruct (find _ (ctx_columns board)); simpl; rewrite app_nil_r; reflexivity.
  - destruct (ctx_columns board); simpl; rewrite app_nil_r; reflexivity.
Qed.

Lemma resolveAssignee_run spec w :
  resolveAssignee transport toLowerCase spec w =
    match Js.given (assigneeName spec) with
    | None => (Returned None, w, [])
    | Some assigneeName =>
        let r := transport GET_members w in
        match fst r with
        | Failed f => (Thrown (RequestFailed f), snd r, [(GET_members, Failed f)])
        | Replied data =>
            (match find (userIncludes toLowerCase (toLowerCase assigneeName))
                        (map userOf (membersOf data)) with
             | None => Thrown (UserNotFound assigneeName)
             | Some user => Returned (Some (user_id user))
             end, snd r, [(GET_members, Replied data)])
        end
    end.
Proof.
  unfold resolveAssignee. destruct (Js.given (assigneeName spec)) as [an|]; [|reflexivity].
  cbv zeta. unfold findUser, getUsers, bind, request.
  destruct (transport GET_members w) as [[data|f] w1]; simpl; [|reflexivity].
  destruct (find _ (map userOf (membersOf data))); reflexivity.
Qed.

Lemma createTaskDetailed_run spec w :
  createTaskDetailed transport toLowerCase parseInt spec w =
    match resolveBoard transport toLowerCase spec w with
    | (Thrown e, w1, t1) => (Thrown e, w1, t1)
    | (Returned (boardId, boardColumnId, projectId), w1, t1) =>
        match resolveAssignee transport toLowerCase spec w1 with
        | (Thrown e, w2, t2) => (Thrown e, w2, t1 ++ t2)
        | (Returned assigneeId, w2, t2) =>
            let main :=
              payloadOf (mainData parseInt spec projectId boardId boardColumnId assigneeId) in
            let r := transport (POST_tasks main) w2 in
            match fst r with
            | Failed f =>
                (Thrown (RequestFailed f), snd r, t1 ++ t2 ++ [(POST_tasks main, Failed f)])
            | Replied body =>
                match createSubtasks transport (subtasks spec) (taskOf body)
                        projectId boardId boardColumnId assigneeId (snd r) with
                | (Returned _, w3, t3) =>
                    (Returned (taskOf body), w3,
                     t1 ++ t2 ++ (POST_tasks main, Replied body) :: t3)
                | (Thrown e, w3, t3) =>
                    (Thrown e, w3, t1 ++ t2 ++ (POST_tasks main, Replied body) :: t3)
                end
            end
        end
    end.
Proof.
  rewrite createTaskDetailed_phases. unfold bind at 1.
  destruct (resolveBoard transport toLowerCase spec w)
    as [[[[[boardId boardColumnId] projectId]|e] w1] t1];
    [|reflexivity].
  unfold bind at 1.
  destruct (resolveAssignee transport toLowerCase spec w1) as [[[assigneeId|e] w2] t2];
    [|reflexivity].
  unfold bind at 1. rewrite createTask_run. cbv zeta.
  destruct (fst (transport (POST_tasks _) w2)) as [body|f]; [|reflexivity].
  unfold bind.
  destruct (createSubtasks _ _ _ _ _ _ _ _) as [[[[]|e] w3] t3]; simpl;
    rewrite ?app_nil_r; reflexivity.
Qed.

(** *** Which requests each phase issues *)

Section Phases.

Variable banned : Request -> bool.

Lemma getBoards_quiet w :
  (forall r, isBoardRead r = true -> banned r = false) ->
  quiet banned (snd (getBoards transport None w)).
Proof.
  intros Hreads. revert w. change (Quiet banned (getBoards transport None)).
  unfold getBoards, getProjects. apply Quiet_bind.
  - apply Quiet_bind; auto with quiet.
  - intros ps. apply Quiet_bind; [|auto with quiet].
    apply Quiet_all. apply Forall_forall. intros m Hm.
    apply in_map_iff in Hm. destruct Hm as (p & <- & _).
    unfold boardsBranch, getBoardsOf.
    apply Quiet_try_catch; [|auto with quiet].
    apply Quiet_bind; [|auto with quiet].
    apply Quiet_bind; auto with quiet.
Qed.

Lemma getBoardWithContext_quiet boardName w :
  (forall r, isBoardRead r = true -> banned r = false) ->
  quiet banned (snd (getBoardWithContext transport toLowerCase boardName w)).
Proof.
  intros Hreads. rewrite getBoardWithContext_run, findBoard_run.
  pose proof (getBoards_quiet w Hreads) as Hq.
  destruct (getBoards transport None w) as [[[boards|e] w1] t1]; simpl in *; [|exact Hq].
  destruct (boardMatches toLowerCase boardName boards) as [|board [|board' rest]]; simpl;
    try exact Hq.
  apply quiet_app. split; [exact Hq|].
  unfold quiet. simpl. rewrite !Hreads by reflexivity. reflexivity.
Qed.

Lemma resolveBoard_quiet spec w :
  (forall r, isBoardRead r = true -> banned r = false) ->
  quiet banned (snd (resolveBoard transport toLowerCase spec w)).
Proof.
  intros Hreads. rewrite resolveBoard_run.
  destruct (Js.given (boardName spec)) as [bn|]; [|reflexivity].
  pose proof (getBoardWithContext_quiet bn w Hreads) as Hq.
  destruct (getBoardWithContext transport toLowerCase bn w) as [[[board|e] w1] t1];
    exact Hq.
Qed.

Lemma resolveAssignee_quiet spec w :
  banned GET_members = false ->
  quiet banned (snd (resolveAssignee transport toLowerCase spec w)).
Proof.
  intros Hmembers. rewrite resolveAssignee_run.
  destruct (Js.given (assigneeName spec)) as [an|]; [|reflexivity].
  cbv zeta. destruct (fst (transport GET_members w)); unfold quiet; simpl;
    rewrite Hmembers; reflexivity.
Qed.

End Phases.

Lemma isBoardRead_not_mutating r : isBoardRead r = true -> mutating r = false.
Proof. destruct r; simpl; congruence. Qed.

Lemma isBoardRead_not_members r : isBoardRead r = true -> isMembers r = false.
Proof. destruct r; simpl; congruence. Qed.

(** *** The subtask loop *)

Section Subtasks.

Variable mainTask : option Task.
Variables projectId boardId boardColumnId assigneeId : option Id.

Local Abbreviation requestOf :=
  (subtaskRequest mainTask projectId boardId boardColumnId assigneeId).

Lemma createSubtasks_step stTitle titles w :
  createSubtasks transport (stTitle :: titles) mainTask
    projectId boardId boardColumnId assigneeId w =
    let r := transport (requestOf stTitle) w in
    match fst r with
    | Failed f => (Thrown (RequestFailed f), snd r, [(requestOf stTitle, Failed f)])
    | Replied body =>
        match createSubtasks transport titles mainTask projectId boardId boardColumnId assigneeId
                (snd r) with
        | (o, w', t) => (o, w', (requestOf stTitle, Replied body) :: t)
        end
    end.
Proof.
  unfold createSubtasks at 1. simpl for_of. unfold bind at 1. unfold bind at 1.
  rewrite createTask_run. cbv zeta. unfold subtaskRequest.
  destruct (fst (transport (POST_tasks _) w)) as [body|f]; reflexivity.
Qed.

(** The loop issues the creation requests of the titles in order; it
    either answers all of them, or stops at the first one that fails and
    throws its failure. *)
Lemma createSubtasks_run titles : forall w o w' t,
  createSubtasks transport titles mainTask projectId boardId boardColumnId assigneeId w
    = (o, w', t) ->
  (o = Returned tt /\ Forall answered t /\ map fst t = map requestOf titles)
  \/
  (exists done stTitle rest f t2,
     titles = done ++ stTitle :: rest /\
     t = t2 ++ [(requestOf stTitle, Failed f)] /\
     Forall answered t2 /\
     map fst t2 = map requestOf done /\
     o = Thrown (RequestFailed f)).
Proof.
  induction titles as [|stTitle titles IH]; intros w o w' t Hrun.
  - inversion Hrun; subst. left. repeat split. constructor.
  - rewrite createSubtasks_step in Hrun. cbv zeta in Hrun.
    destruct (fst (transport (requestOf stTitle) w)) as [body|f].
    + destruct (createSubtasks transport titles _ _ _ _ _ _) as [[o1 w1] t1] eqn:Hrest.
      inversion Hrun; subst. clear Hrun.
      destruct (IH _ _ _ _ Hrest) as [(Ho & Hans & Hreqs)
                                     |(done & st & rest & f & t2 & -> & -> & Hans & Hreqs & Ho)].
      * left. repeat split; [exact Ho| |simpl; congruence].
        constructor; [exact I|exact Hans].
      * right. exists (stTitle :: done), st, rest, f, ((requestOf stTitle, Replied body) :: t2).
        repeat split; [|simpl; congruence|exact Ho].
        constructor; [exact I|exact Hans].
    + inversion Hrun; subst. right. exists [], stTitle, titles, f, [].
      repeat split. constructor.
Qed.

End Subtasks.

(** *** Errors of a failed resolution *)





Lemma createSubtasks_throws titles mainTask p b c a w e w' t :
  createSubtasks transport titles mainTask p b c a w = (Thrown e, w', t) ->
  exists f, e = RequestFailed f.
Proof.
  intros Hrun. apply createSubtasks_run in Hrun.
  destruct Hrun as [(Ho & _)|(done & st & rest & f & t2 & _ & _ & _ & _ & Ho)].
  - discriminate.
  - inversion Ho. eauto.
Qed.

(** *** The workflow as a whole *)

(** Splits a run of [createTaskDetailed] into the five ways it can go:
    every call answered, a subtask creation failed, the primary creation
    failed, the assignee phase threw, the board phase threw. *)
Ltac split_run Hrun :=
  rewrite createTaskDetailed_run in Hrun;
  destruct (resolveBoard _ _ _ _)
    as [[[[[boardId boardColumnId] projectId]|eb] wb] tb] eqn:Hboard;
  [ destruct (resolveAssignee _ _ _ wb) as [[[assigneeId|ea] wa] ta] eqn:Hassignee;
    [ cbv zeta in Hrun;
      destruct (transport (POST_tasks _) wa) as [[body|f] wm] eqn:Hmain;
      cbn [fst snd] in Hrun;
      [ destruct (createSubtasks _ _ _ _ _ _ _ wm) as [[[[]|es] ws] ts] eqn:Hsubs | ]
    | ]
  | ];
  inversion Hrun; subst; clear Hrun.

Lemma resolveBoard_noMutation spec w o w' t :
  resolveBoard transport toLowerCase spec w = (o, w', t) -> noMutation t.
Proof.
  intros H. pose proof (resolveBoard_quiet mutating spec w isBoardRead_not_mutating) as Hq.
  rewrite H in Hq. exact Hq.
Qed.

Lemma resolveAssignee_noMutation spec w o w' t :
  resolveAssignee transport toLowerCase spec w = (o, w', t) -> noMutation t.
Proof.
  intros H. pose proof (resolveAssignee_quiet mutating spec w eq_refl) as Hq.
  rewrite H in Hq. exact Hq.
Qed.

(** The resolution phases together issue no mutating request. *)
Lemma resolution_noMutation spec w ob wb tb oa wa ta :
  resolveBoard transport toLowerCase spec w = (ob, wb, tb) ->
  resolveAssignee transport toLowerCase spec wb = (oa, wa, ta) ->
  noMutation (tb ++ ta).
Proof.
  intros Hb Ha. apply quiet_app. split.
  - exact (resolveBoard_noMutation _ _ _ _ _ Hb).
  - exact (resolveAssignee_noMutation _ _ _ _ _ Ha).
Qed.

Lemma subtask_requests titles mainTask p b c a w o w' ts :
  createSubtasks transport titles mainTask p b c a w = (o, w', ts) ->
  forall r reply, In (r, reply) ts ->
    exists stTitle, In stTitle titles /\ r = subtaskRequest mainTask p b c a stTitle.
Proof.
  intros Hrun r reply Hin.
  assert (Hr : In r (map fst ts)) by (apply in_map_iff; exists (r, reply); auto).
  apply createSubtasks_run in Hrun.
  destruct Hrun as [(_ & _ & Hreqs)|(done & st & rest & f & t2 & -> & -> & _ & Hreqs & _)].
  - rewrite Hreqs in Hr. apply in_map_iff in Hr. destruct Hr as (x & <- & Hx). eauto.
  - rewrite map_app, Hreqs in Hr. apply in_app_or in Hr. destruct Hr as [Hr|[<-|[]]].
    + apply in_map_iff in Hr. destruct Hr as (x & <- & Hx).
      exists x. split; [apply in_or_app; auto|reflexivity].
    + exists st. split; [apply in_or_app; right; left|]; reflexivity.
Qed.

(** Every task creation of the workflow carries the ids the resolution
    phases returned: it is either the primary creation or the creation of
    one of the subtasks. *)
Lemma posted_payloads spec w o w' t payload reply :
  createTaskDetailed transport toLowerCase parseInt spec w = (o, w', t) ->
  In (POST_tasks payload, reply) t ->
  exists b c p a wb tb wa ta,
    resolveBoard transport toLowerCase spec w = (Returned (b, c, p), wb, tb) /\
    resolveAssignee transport toLowerCase spec wb = (Returned a, wa, ta) /\
    (payload = payloadOf (mainData parseInt spec p b c a) \/
     exists stTitle mainTask,
       In stTitle (subtasks spec) /\
       payload = payloadOf (subtaskData stTitle mainTask p b c a)).
Proof.
  intros Hrun Hin. split_run Hrun.
  all: pose proof (resolveBoard_noMutation _ _ _ _ _ Hboard) as Hqb.
  all: try pose proof (resolveAssignee_noMutation _ _ _ _ _ Hassignee) as Hqa.
  all: repeat (apply in_app_or in Hin; destruct Hin as [Hin|Hin]).
  all: try (apply (quiet_In _ _ _ _ Hqb) in Hin; discriminate).
  all: try (apply (quiet_In _ _ _ _ Hqa) in Hin; discriminate).
  all: exists boardId, boardColumnId, projectId, assigneeId, wb, tb, wa, ta.
  all: split; [first [exact Hboard|reflexivity]
              |split; [first [exact Hassignee|reflexivity]|]].
  all: destruct Hin as [Hin|Hin]; [inversion Hin; left; reflexivity|].
  all: try (destruct Hin).
  all: destruct (subtask_requests _ _ _ _ _ _ _ _ _ _ Hsubs _ _ Hin) as (st & Hst & Hr).
  all: inversion Hr; right; eauto.
Qed.

Lemma board_phase_prefix spec w o1 w1 t1 o w' t :
  resolveBoard transport toLowerCase spec w = (o1, w1, t1) ->
  createTaskDetailed transport toLowerCase parseInt spec w = (o, w', t) ->
  exists rest, t = t1 ++ rest.
Proof.
  intros Hb Hrun. split_run Hrun; inversion Hb; subst; eauto.
  exists []. rewrite app_nil_r. reflexivity.
Qed.

Lemma getBoardWithContext_columns name w board w1 t1 :
  getBoardWithContext transport toLowerCase name w = (Returned board, w1, t1) ->
  exists data,
    In (GET_board_columns (board_id (ctx_board board)), Replied data) t1 /\
    ctx_columns board = boardColumnsOf data.
Proof.
  rewrite getBoardWithContext_run.
  destruct (findBoard transport toLowerCase name w) as [[[matches|e] w0] t0]; [|discriminate].
  destruct matches as [|b [|b' rest]]; try discriminate. cbv zeta.
  destruct (fst (transport (GET_board_columns (board_id b)) w0)) as [data|f];
    destruct (fst (transport (GET_tasks (Some (board_id b))) _)); try discriminate.
  intros H. inversion H; subst. clear H. exists data. simpl. split; [|reflexivity].
  apply in_or_app. right. left. reflexivity.
Qed.

(** C8. [createTaskDetailed] with a board name and no column name, once
    the board is resolved: every task creation it issues carries the
    board's id, and as column the id of the first of the board's columns,
    in the order the remote listed them, or no column when the board has
    none; the [locations] element says the same.  When no assignee is
    asked for either, the creation of the primary task is indeed
    issued. *)
Theorem createTaskDetailed_default_column spec name w board w1 t1 o w' t :
  Js.given (boardName spec) = Some name ->
  Js.given (columnName spec) = None ->
  getBoardWithContext transport toLowerCase name w = (Returned board, w1, t1) ->
  createTaskDetailed transport toLowerCase parseInt spec w = (o, w', t) ->
  (exists data,
     In (GET_board_columns (board_id (ctx_board board)), Replied data) t /\
     ctx_columns board = boardColumnsOf data) /\
  (forall payload reply, In (POST_tasks payload, reply) t ->
     td_boardId payload = Some (board_id (ctx_board board)) /\
     match ctx_columns board with
     | first :: _ => td_boardColumnId payload = Some (column_id first)
     | [] => td_boardColumnId payload = None
     end /\
     exists projectId,
       td_locations payload =
         Some [ {| loc_projectId := projectId;
                   loc_boardId := board_id (ctx_board board);
                   loc_boardColumnId := td_boardColumnId payload |} ]) /\
  (Js.given (assigneeName spec) = None ->
   exists payload reply,
     In (POST_tasks payload, reply) t /\
     td_title payload = title spec /\ td_parentId payload = None).
Proof.
  intros Hname Hcolumn Hctx Hrun.
  assert (Hboard : resolveBoard transport toLowerCase spec w =
            (Returned (Some (board_id (ctx_board board)),
                       option_map column_id (hd_error (ctx_columns board)),
                       board_projectId (ctx_board board)), w1, t1)).
  { rewrite resolveBoard_run, Hname, Hctx, Hcolumn. reflexivity. }
  split; [|split].
  - destruct (getBoardWithContext_columns _ _ _ _ _ Hctx) as (data & Hin & Hcols).
    destruct (board_phase_prefix _ _ _ _ _ _ _ _ Hboard Hrun) as (rest & ->).
    exists data. split; [apply in_or_app; left; exact Hin|exact Hcols].
  - intros payload reply Hin.
    destruct (posted_payloads _ _ _ _ _ _ _ Hrun Hin)
      as (b & c & p & a & wb & tb & wa & ta & Hb & _ & Hpayload).
    rewrite Hboard in Hb. inversion Hb; subst. clear Hb.
    destruct Hpayload as [->|(st & mainTask & _ & ->)]; simpl;
      (split; [reflexivity|split; [destruct (ctx_columns board); reflexivity|eauto]]).
  - intros Hnobody. rewrite createTaskDetailed_run, Hboard in Hrun.
    rewrite resolveAssignee_run, Hnobody in Hrun. cbv zeta in Hrun.
    destruct (fst (transport (POST_tasks _) w1)) as [body|f].
    + destruct (createSubtasks _ _ _ _ _ _ _ _) as [[[[]|es] ws] ts];
        inversion Hrun; subst; do 2 eexists;
        (split; [apply in_or_app; right; left; reflexivity|split; reflexivity]).
    + inversion Hrun; subst. do 2 eexists.
      split; [apply in_or_app; right; left; reflexivity|split; reflexivity].
Qed.

(** *** The assignee *)

(** The member listing of a run belongs to its assignee phase. *)
Lemma members_exchange spec w o w' t data :
  createTaskDetailed transport toLowerCase parseInt spec w = (o, w', t) ->
  In (GET_members, Replied data) t ->
  exists name ids w1 t1,
    Js.given (assigneeName spec) = Some name /\
    resolveBoard transport toLowerCase spec w = (Returned ids, w1, t1) /\
    fst (transport GET_members w1) = Replied data.
Proof.
  intros Hrun Hin.
  assert (Hphase : forall ids w1 t1 oa wa ta,
            resolveBoard transport toLowerCase spec w = (Returned ids, w1, t1) ->
            resolveAssignee transport toLowerCase spec w1 = (oa, wa, ta) ->
            In (GET_members, Replied data) ta ->
            exists name ids w1 t1,
              Js.given (assigneeName spec) = Some name /\
              resolveBoard transport toLowerCase spec w = (Returned ids, w1, t1) /\
              fst (transport GET_members w1) = Replied data).
  { intros ids w1 t1 oa wa ta Hb Ha Hta. rewrite resolveAssignee_run in Ha.
    destruct (Js.given (assigneeName spec)) as [name|];
      [|inversion Ha; subst; destruct Hta].
    exists name, ids, w1, t1. split; [reflexivity|split; [exact Hb|]].
    cbv zeta in Ha. destruct (fst (transport GET_members w1)) as [data'|f];
      inversion Ha; subst; in_trace. reflexivity. }
  split_run Hrun.
  all: pose proof (resolveBoard_quiet isMembers spec w isBoardRead_not_members) as Hqb;
    rewrite Hboard in Hqb; cbn [snd] in Hqb.
  all: repeat (apply in_app_or in Hin; destruct Hin as [Hin|Hin]).
  all: try (apply (quiet_In _ _ _ _ Hqb) in Hin; discriminate).
  all: try (exact (Hphase _ _ _ _ _ _ eq_refl Hassignee Hin)).
  all: destruct Hin as [Hin|Hin]; [discriminate Hin|].
  all: try (destruct Hin).
  all: destruct (subtask_requests _ _ _ _ _ _ _ _ _ _ Hsubs _ _ Hin) as (st & _ & Hr);
    discriminate Hr.
Qed.

Lemma find_first A (f : A -> bool) l x :
  find f l = Some x ->
  exists before after,
    l = before ++ x :: after /\
    forallb (fun y => negb (f y)) before = true /\ f x = true.
Proof.
  induction l as [|y l IH]; simpl; [discriminate|].
  destruct (f y) eqn:Ey.
  - intros E. injection E as ->. exists [], l. auto.
  - intros E. destruct (IH E) as (before & after & -> & Hbefore & Hx).
    exists (y :: before), after. simpl. rewrite Ey. auto.
Qed.

(** C2, as the code has it.  [createTaskDetailed] with an assignee name
    resolves it to the first user, in the order of the member listing,
    whose lower-cased name or email contains the lower-cased query: every
    task creation carries exactly that user's id, and the operation does
    not end in a user-not-found error.  Only when no user matches does it
    throw that error, having issued no mutating request. *)
Theorem createTaskDetailed_assignee_first_match spec name w o w' t data :
  Js.given (assigneeName spec) = Some name ->
  createTaskDetailed transport toLowerCase parseInt spec w = (o, w', t) ->
  In (GET_members, Replied data) t ->
  let users := map userOf (membersOf data) in
  match find (userIncludes toLowerCase (toLowerCase name)) users with
  | None => o = Thrown (UserNotFound name) /\ noMutation t
  | Some user =>
      (exists before after,
         users = before ++ user :: after /\
         forallb (fun u => negb (userIncludes toLowerCase (toLowerCase name) u)) before
           = true /\
         userIncludes toLowerCase (toLowerCase name) user = true) /\
      (forall n, o <> Thrown (UserNotFound n)) /\
      (forall payload reply, In (POST_tasks payload, reply) t ->
         td_assignees payload = Some [user_id user])
  end.
Proof.
  intros Hname Hrun Hin users.
  destruct (members_exchange _ _ _ _ _ _ Hrun Hin)
    as (name' & [[b c] p] & w1 & t1 & Hname' & Hb & Hmembers).
  rewrite Hname in Hname'. injection Hname' as <-.
  assert (Ha : resolveAssignee transport toLowerCase spec w1 =
            (match find (userIncludes toLowerCase (toLowerCase name)) users with
             | None => Thrown (UserNotFound name)
             | Some user => Returned (Some (user_id user))
             end, snd (transport GET_members w1), [(GET_members, Replied data)])).
  { rewrite resolveAssignee_run, Hname. cbv zeta. rewrite Hmembers. reflexivity. }
  destruct (find (userIncludes toLowerCase (toLowerCase name)) users) as [user|] eqn:Hfind.
  - split; [exact (find_first _ _ _ _ Hfind)|]. split.
    + intros n ->. rewrite createTaskDetailed_run, Hb, Ha in Hrun. cbv zeta in Hrun.
      destruct (fst (transport (POST_tasks _) _)); [|discriminate].
      destruct (createSubtasks _ _ _ _ _ _ _ _) as [[[[]|es] ws] ts] eqn:Hsubs; [discriminate|].
      destruct (createSubtasks_throws _ _ _ _ _ _ _ _ _ _ Hsubs) as [f ->]. discriminate.
    + intros payload reply Hpost.
      destruct (posted_payloads _ _ _ _ _ _ _ Hrun Hpost)
        as (b' & c' & p' & a & wb & tb & wa & ta & Hb' & Ha' & Hpayload).
      rewrite Hb in Hb'. inversion Hb'; subst. clear Hb'.
      rewrite Ha in Ha'. inversion Ha'; subst. clear Ha'.
      destruct Hpayload as [->|(st & mainTask & _ & ->)]; reflexivity.
  - rewrite createTaskDetailed_run, Hb, Ha in Hrun. inversion Hrun; subst.
    split; [reflexivity|]. eapply resolution_noMutation; eassumption.
Qed.

(** *** Failed resolutions *)





(** *** The primary task and its subtasks *)

Lemma subtaskRequest_call spec p b c a mainTask stTitle reply :
  subtaskCall (payloadOf (mainData parseInt spec p b c a)) mainTask stTitle
              (subtaskRequest mainTask p b c a stTitle, reply).
Proof. eexists. repeat split. Qed.

Lemma calls_of_requests spec p b c a mainTask titles : forall ts,
  map fst ts = map (subtaskRequest mainTask p b c a) titles ->
  Forall2 (subtaskCall (payloadOf (mainData parseInt spec p b c a)) mainTask) titles ts.
Proof.
  induction titles as [|st titles IH]; intros [|[r reply] ts] E; simpl in E;
    try discriminate; constructor.
  - injection E as -> _. apply subtaskRequest_call.
  - injection E as _ E. apply IH, E.
Qed.

(** The first mutating exchange of a run, when it is answered, is the
    creation of the primary task; what follows it is the subtask loop. *)
Lemma primary_creation spec w o w' t t0 main reply t1 :
  createTaskDetailed transport toLowerCase parseInt spec w = (o, w', t) ->
  t = t0 ++ (POST_tasks main, Replied reply) :: t1 ->
  noMutation t0 ->
  exists p b c a w1 osub,
    main = payloadOf (mainData parseInt spec p b c a) /\
    createSubtasks transport (subtasks spec) (taskOf reply) p b c a w1 = (osub, w', t1) /\
    o = match osub with
        | Returned _ => Returned (taskOf reply)
        | Thrown e => Thrown e
        end.
Proof.
  intros Hrun. split_run Hrun; intros Ht Hq.
  all: pose proof (resolveBoard_noMutation _ _ _ _ _ Hboard) as Hqb.
  all: try pose proof (resolution_noMutation _ _ _ _ _ _ _ _ Hboard Hassignee) as Hqr.
  1-3: rewrite app_assoc in Ht;
       pose proof (fun H1 H2 => first_banned_unique mutating _ _ _ _ _ _ Hqr Hq H1 H2 Ht)
         as Hsplit;
       destruct (Hsplit eq_refl eq_refl) as (_ & Hx & <-); inversion Hx; subst.
  - exists projectId, boardId, boardColumnId, assigneeId, wm, (Returned tt). auto.
  - exists projectId, boardId, boardColumnId, assigneeId, wm, (Thrown es). auto.
  - exfalso. rewrite Ht in Hqr. apply quiet_app in Hqr. destruct Hqr as [_ Hqr].
    apply quiet_cons in Hqr. destruct Hqr. discriminate.
  - exfalso. rewrite Ht in Hqb. apply quiet_app in Hqb. destruct Hqb as [_ Hqb].
    apply quiet_cons in Hqb. destruct Hqb. discriminate.
Qed.

(** The calls of [subtaskCall], with the parent's id read off the reply
    to the primary creation. *)
Lemma subtaskCall_spelled main reply stTitle x :
  subtaskCall main (taskOf reply) stTitle x ->
  exists payload,
    fst x = POST_tasks payload /\
    td_title payload = stTitle /\
    td_parentId payload = match reply with
                          | TaskBody task => task_id task
                          | _ => None
                          end /\
    td_projectId payload = td_projectId main /\
    td_boardId payload = td_boardId main /\
    td_boardColumnId payload = td_boardColumnId main /\
    td_assignees payload = td_assignees main.
Proof.
  intros (payload & Hx & Htitle & Hparent & Hrest). exists payload.
  split; [exact Hx|]. split; [exact Htitle|]. split; [|exact Hrest].
  rewrite Hparent. destruct reply as [| | | | |  |text]; try reflexivity.
  simpl. destruct (Js.truthy text); reflexivity.
Qed.

(** C6, as the code has it.  After the primary task is created, the
    subtask creations [t1] are issued one after the other in the order of
    the titles: the i-th one carries the i-th title, as [parentId] the id of
    the task in the reply to the primary creation, and the project, board,
    column and assignees of the primary payload.  Every one of them but
    the last is answered: a creation that failed is the last request
    issued, so they cover the titles up to and including the first whose
    creation fails.  When every one is answered there is one per title and
    the value returned is the primary task as its creation answered it;
    otherwise the operation throws and returns nothing. *)
Theorem createTaskDetailed_subtasks_in_order spec w o w' t t0 main reply t1 :
  createTaskDetailed transport toLowerCase parseInt spec w = (o, w', t) ->
  t = t0 ++ (POST_tasks main, Replied reply) :: t1 ->
  noMutation t0 ->
  length t1 <= length (subtasks spec) /\
  Forall2 (fun stTitle (x : Exchange) =>
             exists payload,
               fst x = POST_tasks payload /\
               td_title payload = stTitle /\
               td_parentId payload = match reply with
                                     | TaskBody task => task_id task
                                     | _ => None
                                     end /\
               td_projectId payload = td_projectId main /\
               td_boardId payload = td_boardId main /\
               td_boardColumnId payload = td_boardColumnId main /\
               td_assignees payload = td_assignees main)
          (firstn (length t1) (subtasks spec)) t1 /\
  Forall answered (removelast t1) /\
  (Forall answered t1 ->
     length t1 = length (subtasks spec) /\
     o = Returned (taskOf reply) /\
     forall task, reply = TaskBody task -> o = Returned (Some task)) /\
  (~ Forall answered t1 -> exists f, o = Thrown (RequestFailed f)).
Proof.
  intros Hrun Ht Hq.
  destruct (primary_creation _ _ _ _ _ _ _ _ _ Hrun Ht Hq)
    as (p & b & c & a & w1 & osub & -> & Hsubs & ->).
  apply createSubtasks_run in Hsubs.
  destruct Hsubs as [(-> & Hans & Hreqs)
                    |(done & st & rest & f & t2 & Htitles & -> & Hans & Hreqs & ->)].
  - assert (Hlen : length t1 = length (subtasks spec)).
    { rewrite <- (length_map fst t1), Hreqs. apply length_map. }
    rewrite Hlen, firstn_all. split; [lia|]. split; [|split; [|split]].
    + eapply Forall2_impl; [|apply (calls_of_requests spec), Hreqs].
      intros stTitle x. apply subtaskCall_spelled.
    + clear - Hans. induction Hans as [|x l Hx Hl IH]; [constructor|].
      destruct l; [constructor|]. simpl in *. constructor; assumption.
    + intros _. split; [reflexivity|]. split; [reflexivity|]. intros task ->. reflexivity.
    + intros Hnot. destruct (Hnot Hans).
  - assert (Hlen : length t2 = length done).
    { rewrite <- (length_map fst t2), Hreqs. apply length_map. }
    rewrite Htitles, !length_app, Hlen. simpl. split; [lia|]. split; [|split; [|split]].
    + replace (length done + 1) with (length (done ++ [st])) by (rewrite length_app; reflexivity).
      replace (done ++ st :: rest) with ((done ++ [st]) ++ rest)
        by (rewrite <- app_assoc; reflexivity).
      rewrite firstn_app, firstn_all, Nat.sub_diag. simpl. rewrite app_nil_r.
      apply Forall2_app.
      * eapply Forall2_impl; [|apply (calls_of_requests spec), Hreqs].
        intros stTitle x. apply subtaskCall_spelled.
      * constructor; [|constructor].
        exact (subtaskCall_spelled _ _ _ _ (subtaskRequest_call spec p b c a _ st (Failed f))).
    + rewrite removelast_last. exact Hans.
    + intros Hall. apply Forall_app in Hall. destruct Hall as [_ Hall].
      inversion Hall as [|x l Hx _]; subst. destruct Hx.
    + intros _. exists f. reflexivity.
Qed.

(** C1, as the code has it.  When the primary task is created and a
    subtask creation fails, the workflow throws that failure: it returns
    nothing about the primary task or about the subtasks.  The failed
    creation is the last request issued; the subtasks before it were
    created and stay so, like the primary task (nothing is issued to undo
    them), and the titles after it are never attempted. *)
Theorem createTaskDetailed_subtask_failure spec w o w' t t0 main reply t2 r f t3 :
  createTaskDetailed transport toLowerCase parseInt spec w = (o, w', t) ->
  t = t0 ++ (POST_tasks main, Replied reply) :: t2 ++ (r, Failed f) :: t3 ->
  noMutation t0 ->
  o = Thrown (RequestFailed f) /\
  t3 = [] /\
  Forall answered t2 /\
  exists done stTitle rest,
    subtasks spec = done ++ stTitle :: rest /\
    Forall2 (subtaskCall main (taskOf reply)) done t2 /\
    subtaskCall main (taskOf reply) stTitle (r, Failed f).
Proof.
  intros Hrun Ht Hq.
  destruct (primary_creation _ _ _ _ _ _ _ _ _ Hrun Ht Hq)
    as (p & b & c & a & w1 & osub & -> & Hsubs & ->).
  apply createSubtasks_run in Hsubs.
  destruct Hsubs as [(-> & Hans & Hreqs)
                    |(done & st & rest & f' & t2' & Htitles & Hsplit & Hans & Hreqs & ->)].
  - exfalso. apply Forall_app in Hans. destruct Hans as [_ Hans].
    inversion Hans as [|x l Hx _]; subst. destruct Hx.
  - symmetry in Hsplit. apply first_failure_unique in Hsplit; [|exact Hans|intros []].
    destruct Hsplit as (-> & Hx & ->). inversion Hx; subst.
    repeat split; auto. exists done, st, rest. repeat split; auto.
    + apply calls_of_requests, Hreqs.
    + apply subtaskRequest_call.
Qed.

(** *** Further properties of the client *)

(** [getBoards()] throws only when the listing of the projects fails: it has
    then issued that one request, and what it throws is its failure. *)
Theorem getBoards_throws_with_listing w e w' t :
  getBoards transport None w = (Thrown e, w', t) ->
  exists f,
    transport GET_projects w = (Failed f, w') /\
    e = RequestFailed f /\
    t = [(GET_projects, Failed f)].
Proof.
  unfold getBoards, getProjects, bind, request.
  destruct (transport GET_projects w) as [[data|f] w1] eqn:Hlisting; simpl.
  - rewrite all_boardsBranch_run. discriminate.
  - intros H. inversion H; subst. exists f. auto.
Qed.

(** [getBoardWithContext(name)], once [findBoard] has answered.  With
    exactly one match it issues two more requests, the columns and then the
    tasks of that board's id, the second one whether or not the first is
    answered.  When both are answered it returns the board with the columns
    and the tasks the replies list (none for a reply without the list);
    when one fails it throws that failure; when both fail it throws the
    failure that arrives first.  With no match or several it issues no
    further request and throws. *)
Theorem getBoardWithContext_fetches name w matches w1 t1 o w' t :
  findBoard transport toLowerCase name w = (Returned matches, w1, t1) ->
  getBoardWithContext transport toLowerCase name w = (o, w', t) ->
  match matches with
  | [board] =>
      let (r1, w2) := transport (GET_board_columns (board_id board)) w1 in
      let (r2, w3) := transport (GET_tasks (Some (board_id board))) w2 in
      t = t1 ++ [(GET_board_columns (board_id board), r1);
                 (GET_tasks (Some (board_id board)), r2)] /\
      w' = w3 /\
      o = match r1, r2 with
          | Replied columns, Replied tasks =>
              Returned {| ctx_board := board;
                          ctx_columns := match columns with
                                         | ColumnsBody (Some listed) => listed
                                         | _ => []
                                         end;
                          ctx_tasks := match tasks with
                                       | TasksBody (Some listed) => listed
                                       | _ => []
                                       end |}
          | Failed f, Replied _ => Thrown (RequestFailed f)
          | Replied _, Failed f => Thrown (RequestFailed f)
          | Failed f1, Failed f2 => Thrown (RequestFailed (if overtakes w3 then f2 else f1))
          end
  | [] => t = t1 /\ w' = w1 /\ o = Thrown (BoardNotFound name)
  | _ :: _ :: _ => t = t1 /\ w' = w1 /\ o = Thrown (MultipleBoards matches)
  end.
Proof.
  intros Hfind. rewrite getBoardWithContext_run, Hfind.
  destruct matches as [|board [|board' rest]].
  - intros H. inversion H. auto.
  - cbv zeta.
    destruct (transport (GET_board_columns (board_id board)) w1) as [r1 w2].
    destruct (transport (GET_tasks (Some (board_id board))) w2) as [r2 w3] eqn:Htasks.
    cbn [fst snd]. rewrite Htasks. cbn [fst snd].
    intros H. inversion H; subst. split; [reflexivity|]. split; [reflexivity|].
    destruct r1 as [columns|f1], r2 as [tasks|f2]; reflexivity.
  - intros H. inversion H. auto.
Qed.

(** A trace in which only requests of the class [allowed] occur is clear
    of any class disjoint from it. *)
Lemma quiet_disjoint (allowed banned : Request -> bool) t :
  (forall r, banned r = true -> allowed r = true -> False) ->
  Forall (fun x : Exchange => allowed (fst x) = true) t ->
  quiet banned t.
Proof.
  intros Hdisjoint. induction 1 as [|x t Hx _ IH]; [reflexivity|].
  apply quiet_cons. split; [|exact IH].
  destruct (banned (fst x)) eqn:E; [|reflexivity]. destruct (Hdisjoint _ E Hx).
Qed.

Lemma createSubtasks_creations titles mainTask p b c a w :
  Forall (fun x : Exchange => isCreation (fst x) = true)
         (snd (createSubtasks transport titles mainTask p b c a w)).
Proof.
  destruct (createSubtasks transport titles mainTask p b c a w) as [[o w'] ts] eqn:Hrun.
  apply Forall_forall. intros [r reply] Hin.
  destruct (subtask_requests _ _ _ _ _ _ _ _ _ _ Hrun _ _ Hin) as (st & _ & ->).
  reflexivity.
Qed.

Lemma resolveAssignee_members spec w :
  Forall (fun x : Exchange => isMembers (fst x) = true)
         (snd (resolveAssignee transport toLowerCase spec w)).
Proof.
  rewrite resolveAssignee_run. destruct (Js.given (assigneeName spec)); [|constructor].
  cbv zeta. destruct (fst (transport GET_members w)); repeat constructor.
Qed.

(** The trace of the workflow: the board phase, then member listings, then
    task creations. *)
Lemma trace_shape spec w :
  exists members creations,
    snd (createTaskDetailed transport toLowerCase parseInt spec w) =
      snd (resolveBoard transport toLowerCase spec w) ++ members ++ creations /\
    Forall (fun x : Exchange => isMembers (fst x) = true) members /\
    Forall (fun x : Exchange => isCreation (fst x) = true) creations.
Proof.
  rewrite createTaskDetailed_run.
  destruct (resolveBoard transport toLowerCase spec w)
    as [[[[[boardId boardColumnId] projectId]|eb] wb] tb].
  2: { exists [], []. simpl. rewrite app_nil_r. auto. }
  pose proof (resolveAssignee_members spec wb) as Hmembers.
  destruct (resolveAssignee transport toLowerCase spec wb) as [[[assigneeId|ea] wa] ta].
  2: { exists ta, []. simpl. rewrite app_nil_r. auto. }
  cbv zeta. simpl in Hmembers.
  destruct (fst (transport (POST_tasks _) wa)) as [body|f].
  - pose proof (createSubtasks_creations (subtasks spec) (taskOf body) projectId boardId
                  boardColumnId assigneeId
                  (snd (transport (POST_tasks (payloadOf
                     (mainData parseInt spec projectId boardId boardColumnId assigneeId)))
                     wa))) as Hsubs.
    destruct (createSubtasks _ _ _ _ _ _ _ _) as [[[[]|es] ws] ts]; simpl in *;
      eexists ta, (_ :: ts); (split; [reflexivity|split; [exact Hmembers|]]);
      constructor; auto.
  - eexists ta, [_]. simpl. split; [reflexivity|]. split; [exact Hmembers|].
    repeat constructor.
Qed.

(** [createTaskDetailed] reads before it writes: its trace is a run of
    reads followed by a run of task creations; once the first creation is
    issued, nothing is read again and nothing but tasks is created. *)
Theorem createTaskDetailed_reads_then_writes spec w :
  exists reads writes,
    snd (createTaskDetailed transport toLowerCase parseInt spec w) = reads ++ writes /\
    noMutation reads /\
    Forall (fun x : Exchange => exists payload, fst x = POST_tasks payload) writes.
Proof.
  destruct (trace_shape spec w) as (members & creations & Htrace & Hmembers & Hcreations).
  exists (snd (resolveBoard transport toLowerCase spec w) ++ members), creations.
  split; [rewrite Htrace; apply app_assoc|]. split.
  - apply quiet_app. split.
    + apply resolveBoard_quiet, isBoardRead_not_mutating.
    + apply (quiet_disjoint isMembers); [|exact Hmembers].
      intros [] ? ?; discriminate.
  - eapply Forall_impl; [|exact Hcreations].
    intros [[] reply] H; try discriminate. simpl. eauto.
Qed.


(** [createTaskDetailed] with a board name and a column name, once the
    board is resolved: the column is the first of the board's columns, in
    the order the remote listed them, whose lower-cased name contains the
    lower-cased query, and every task created carries its id (an exact
    match further down the list gets no precedence).  When no column
    matches, the operation throws the column-not-found error naming the
    query and the board, having issued nothing after the board's reads. *)
Theorem createTaskDetailed_named_column spec name query w board w1 t1 o w' t :
  Js.given (boardName spec) = Some name ->
  Js.given (columnName spec) = Some query ->
  getBoardWithContext transport toLowerCase name w = (Returned board, w1, t1) ->
  createTaskDetailed transport toLowerCase parseInt spec w = (o, w', t) ->
  match find (columnIncludes toLowerCase (toLowerCase query)) (ctx_columns board) with
  | None => o = Thrown (ColumnNotFound query name) /\ t = t1 /\ noMutation t
  | Some col =>
      (exists before after,
         ctx_columns board = before ++ col :: after /\
         forallb (fun c => negb (columnIncludes toLowerCase (toLowerCase query) c)) before
           = true /\
         columnIncludes toLowerCase (toLowerCase query) col = true) /\
      (forall payload reply, In (POST_tasks payload, reply) t ->
         td_boardId payload = Some (board_id (ctx_board board)) /\
         td_boardColumnId payload = Some (column_id col))
  end.
Proof.
  intros Hname Hquery Hctx Hrun.
  pose proof (resolveBoard_run spec w) as Hb. rewrite Hname, Hctx, Hquery in Hb.
  destruct (find (columnIncludes toLowerCase (toLowerCase query)) (ctx_columns board))
    as [col|] eqn:Hfind.
  - split; [exact (find_first _ _ _ _ Hfind)|].
    intros payload reply Hin.
    destruct (posted_payloads _ _ _ _ _ _ _ Hrun Hin)
      as (b & c & p & a & wb & tb & wa & ta & Hb' & _ & Hpayload).
    rewrite Hb in Hb'. inversion Hb'; subst.
    destruct Hpayload as [->|(st & mainTask & _ & ->)]; auto.
  - rewrite createTaskDetailed_run, Hb in Hrun. inversion Hrun; subst.
    repeat split. exact (resolveBoard_noMutation _ _ _ _ _ Hb).
Qed.

(** What the workflow sends beyond the resolved ids.  The first mutating
    request is the creation of the primary task: it carries the title,
    the type ['action'], no parent, the description (the empty string when
    none or an empty one is given) and the priority parsed from the input
    (0 when none is given).  The creations after it, those of the
    subtasks, carry the type ['action'] and neither description nor
    priority. *)
Theorem createTaskDetailed_payload_defaults spec w o w' t t0 main reply t1 :
  createTaskDetailed transport toLowerCase parseInt spec w = (o, w', t) ->
  t = t0 ++ (POST_tasks main, reply) :: t1 ->
  noMutation t0 ->
  (td_title main = title spec /\
   td_type main = Some "action" /\
   td_parentId main = None /\
   td_description main = Some (Js.or_else (description spec) EmptyString) /\
   td_priority main = Some (match priority spec with
                            | Some p => parseInt p
                            | None => Js.Int 0
                            end)) /\
  Forall (fun x : Exchange =>
            exists payload,
              fst x = POST_tasks payload /\ td_type payload = Some "action" /\
              td_description payload = None /\ td_priority payload = None) t1.
Proof.
  intros Hrun. split_run Hrun; intros Ht Hq.
  all: pose proof (resolveBoard_noMutation _ _ _ _ _ Hboard) as Hqb.
  all: try pose proof (resolution_noMutation _ _ _ _ _ _ _ _ Hboard Hassignee) as Hqr.
  1-3: rewrite app_assoc in Ht;
       pose proof (fun H1 H2 => first_banned_unique mutating _ _ _ _ _ _ Hqr Hq H1 H2 Ht)
         as Hsplit;
       destruct (Hsplit eq_refl eq_refl) as (_ & Hx & <-); inversion Hx; subst;
       (split; [repeat split|]).
  - apply Forall_forall. intros [r reply'] Hin.
    destruct (subtask_requests _ _ _ _ _ _ _ _ _ _ Hsubs _ _ Hin) as (st & _ & ->).
    eexists. repeat split.
  - apply Forall_forall. intros [r reply'] Hin.
    destruct (subtask_requests _ _ _ _ _ _ _ _ _ _ Hsubs _ _ Hin) as (st & _ & ->).
    eexists. repeat split.
  - constructor.
  - exfalso. rewrite Ht in Hqr. apply quiet_app in Hqr. destruct Hqr as [_ Hqr].
    apply quiet_cons in Hqr. destruct Hqr. discriminate.
  - exfalso. rewrite Ht in Hqb. apply quiet_app in Hqb. destruct Hqb as [_ Hqb].
    apply quiet_cons in Hqb. destruct Hqb. discriminate.
Qed.

(** [moveTaskToColumn] issues at most one mutating request, the move, and
    issues it last, after its reads; it returns what the move answered, and
    throws in every other case. *)
Theorem moveTaskToColumn_single_mutation taskId columnName w :
  let run := moveTaskToColumn transport toLowerCase taskId columnName w in
  (noMutation (snd run) /\ exists e, fst (fst run) = Thrown e) \/
  (exists reads boardColumnId reply,
     snd run = reads ++ [(POST_board_column taskId boardColumnId, reply)] /\
     noMutation reads /\
     fst (fst run) = match reply with
                     | Replied moved => Returned moved
                     | Failed f => Thrown (RequestFailed f)
                     end).
Proof.
  cbv zeta. rewrite moveTaskToColumn_run. cbv zeta.
  destruct (fst (transport (GET_task taskId) w)) as [body|f]; [|left; split; [reflexivity|simpl; eauto]].
  destruct (taskOf body) as [task|]; [|left; split; [reflexivity|simpl; eauto]].
  destruct (task_boardId task) as [boardId|]; [|left; split; [reflexivity|simpl; eauto]].
  destruct (fst (transport (GET_board_columns boardId) _)) as [data|f];
    [|left; split; [reflexivity|simpl; eauto]].
  destruct (find _ (boardColumnsOf data)) as [col|]; [|left; split; [reflexivity|simpl; eauto]].
  right. eexists [_; _], (column_id col), _. simpl.
  split; [reflexivity|]. split; [reflexivity|].
  destruct (fst (transport (POST_board_column taskId (column_id col)) _)); reflexivity.
Qed.

(** The name [getUsers] derives for a member: the first and last names
    joined by one space when both are given, the one that is given when
    only one is (a name that is absent or empty is not given), and the
    email when neither is. *)
Theorem userOf_name u :
  user_name (userOf u) =
    match Js.given (member_firstName u), Js.given (member_lastName u) with
    | Some first, Some last => (first ++ " " ++ last)%string
    | Some first, None => first
    | None, Some last => last
    | None, None => member_email u
    end.
Proof.
  unfold userOf, nameParts. simpl.
  destruct (member_firstName u) as [[|c first]|], (member_lastName u) as [[|d last]|];
    reflexivity.
Qed.

End ClientFacts.

(** * The client at work on the sample workspace *)

Example getBoards_demo :
  Demo.run (getBoards Demo.transport None) = (Returned Demo.listing, [], Demo.listingTrace).
Proof. reflexivity. Qed.

Example findUser_demo :
  Demo.outcome (findUser Demo.transport Demo.toLowerCase "ann") = Returned (Some Demo.annLee).
Proof. reflexivity. Qed.

Example create_demo :
  Demo.outcome (Demo.create (Demo.onRelease ["A"; "C"]))
    = Returned (taskOf (Demo.mainReply ["A"; "C"])) /\
  Demo.requestedTitles (Demo.trace (Demo.create (Demo.onRelease ["A"; "C"]))) = ["T"; "A"; "C"].
Proof. split; reflexivity. Qed.

(** C5 on the sample: the boards of projects 1 and 3, in that order, each
    with the name of its project; the failed request of project 2
    contributes nothing and nothing is thrown. *)
Lemma getBoards_aggregates_witness :
  getBoards Demo.transport None [] =
    (Returned [Demo.listed 10 "Release 2.0" 1 "Apps"; Demo.listed 11 "Release 2.1" 1 "Apps";
               Demo.listed 12 "Empty" 1 "Apps"; Demo.listed 30 "Release" 3 "Docs";
               Demo.listed 31 "Handbook" 3 "Docs"; Demo.listed 32 "handbook" 3 "Docs"],
     [], Demo.listingTrace) /\
  map board_projectName (Demo.boardsOfProject 1 ++ Demo.boardsOfProject 3) =
    [None; None; None; None; None; None].
Proof.
  split; [|reflexivity].
  exact (proj2 (getBoards_aggregates Demo.transport [] (ProjectsBody (Some Demo.projects)) []
                  eq_refl)).
Defined.

(** C3 on the sample: "release" is the name of board 30 and occurs in the
    names of boards 10 and 11; "release 2" only occurs in names, twice;
    "kanban" occurs in none. *)
Lemma findBoard_resolves_witness :
  findBoard Demo.transport Demo.toLowerCase "release" [] =
    (Returned [Demo.listed 30 "Release" 3 "Docs"], [], Demo.listingTrace) /\
  findBoard Demo.transport Demo.toLowerCase "release 2" [] =
    (Returned [Demo.listed 10 "Release 2.0" 1 "Apps"; Demo.listed 11 "Release 2.1" 1 "Apps"],
     [], Demo.listingTrace) /\
  findBoard Demo.transport Demo.toLowerCase "kanban" [] = (Returned [], [], Demo.listingTrace).
Proof.
  split; [|split].
  - apply (findBoard_resolves Demo.transport Demo.toLowerCase "release" []
             Demo.listing [] Demo.listingTrace eq_refl).
    reflexivity.
  - apply (findBoard_resolves Demo.transport Demo.toLowerCase "release 2" []
             Demo.listing [] Demo.listingTrace eq_refl).
    + reflexivity.
    + simpl. lia.
  - apply (findBoard_resolves Demo.transport Demo.toLowerCase "kanban" []
             Demo.listing [] Demo.listingTrace eq_refl).
    reflexivity.
Defined.

(** C9 on the sample: boards 31 and 32 are both named "handbook" up to
    case; the first one is returned alone. *)
Lemma findBoard_duplicate_exact_witness :
  findBoard Demo.transport Demo.toLowerCase "HANDBOOK" [] =
    (Returned [Demo.listed 31 "Handbook" 3 "Docs"], [], Demo.listingTrace).
Proof.
  apply (findBoard_duplicate_exact Demo.transport Demo.toLowerCase "HANDBOOK" []
           Demo.listing [] Demo.listingTrace
           (Demo.listed 31 "Handbook" 3 "Docs") (Demo.listed 32 "handbook" 3 "Docs") []
           eq_refl eq_refl).
Defined.

(** C10 on the sample: a task for board 10 with no project given. *)
Lemma createTask_payload_witness :
  exists payload reply,
    snd (createTask Demo.transport
           (mainData Demo.parseInt (Demo.spec "T" None None None []) None (Some 10%positive)
              None None) []) = [(POST_tasks payload, reply)] /\
    td_type payload = Some "action" /\
    td_locations payload =
      Some [ {| loc_projectId := 0; loc_boardId := 10; loc_boardColumnId := None |} ].
Proof.
  destruct (createTask_payload Demo.transport
              (mainData Demo.parseInt (Demo.spec "T" None None None []) None (Some 10%positive)
                 None None) [])
    as (payload & reply & Htrace & Htype & Hlocations).
  exists payload, reply. split; [exact Htrace|]. split; [exact Htype|].
  exact (Hlocations 10%positive eq_refl).
Defined.

(** C7 on the sample: task 893 sits on board 30; boards 10 and 30 both have
    a column "Done"; the move goes to column 301, the one of board 30. *)
Lemma moveTaskToColumn_on_task_board_witness :
  exists col,
    POST_board_column 893 301 = POST_board_column 893 (column_id col) /\
    In col (Demo.columnsOfBoard 30) /\
    column_boardId col = Some 30%positive /\
    In (POST_board_column 893 301, Replied (TextBody "ok"))
       (Demo.trace (moveTaskToColumn Demo.transport Demo.toLowerCase 893 "done")).
Proof.
  destruct (moveTaskToColumn_on_task_board Demo.transport Demo.toLowerCase 893 "done" []
              (Returned (TextBody "ok")) []
              (Demo.trace (moveTaskToColumn Demo.transport Demo.toLowerCase 893 "done"))
              eq_refl) as (Hmove & _ & _).
  assert (Hin : In (POST_board_column 893 301, Replied (TextBody "ok"))
                   (Demo.trace (moveTaskToColumn Demo.transport Demo.toLowerCase 893 "done")))
    by (right; right; left; reflexivity).
  destruct (Hmove _ _ Hin eq_refl)
    as (body & task & boardId & data & col & Htask & Hof & Hboard & Hcols & _ & Hfind
        & Hcol & Hscope & Hreq).
  exists col. split; [exact Hreq|].
  assert (Hbody : body = TaskBody (Demo.storedTask 893)).
  { destruct Htask as [E|[E|[E|[]]]]; inversion E. reflexivity. }
  subst body. injection Hof as <-. injection Hboard as <-.
  assert (Hdata : data = ColumnsBody (Some (Demo.columnsOfBoard 30))).
  { destruct Hcols as [E|[E|[E|[]]]]; inversion E. reflexivity. }
  subst data. split; [exact Hcol|]. split; [|exact Hin].
  apply Hscope. repeat constructor.
Defined.


(** C8 on the sample: board 10 lists the columns 100 and 101, board 12
    lists none. *)
Lemma createTaskDetailed_default_column_witness :
  (forall payload reply,
     In (POST_tasks payload, reply)
        (Demo.trace (Demo.create (Demo.spec "T" (Some "Release 2.0") None None ["A"]))) ->
     td_boardColumnId payload = Some 100%positive) /\
  (forall payload reply,
     In (POST_tasks payload, reply)
        (Demo.trace (Demo.create (Demo.spec "T" (Some "Empty") None None ["A"]))) ->
     td_boardColumnId payload = None) /\
  Demo.requestedTitles
    (Demo.trace (Demo.create (Demo.spec "T" (Some "Release 2.0") None None ["A"]))) = ["T"; "A"].
Proof.
  split; [|split; [|reflexivity]]; intros payload reply Hin.
  - destruct (createTaskDetailed_default_column Demo.transport Demo.toLowerCase Demo.parseInt
                (Demo.spec "T" (Some "Release 2.0") None None ["A"]) "Release 2.0" []
                {| ctx_board := Demo.listed 10 "Release 2.0" 1 "Apps";
                   ctx_columns := Demo.columnsOfBoard 10; ctx_tasks := [] |}
                _ _ _ _ _ eq_refl eq_refl eq_refl eq_refl) as (_ & Hposted & _).
    destruct (Hposted payload reply Hin) as (_ & Hcolumn & _). exact Hcolumn.
  - destruct (createTaskDetailed_default_column Demo.transport Demo.toLowerCase Demo.parseInt
                (Demo.spec "T" (Some "Empty") None None ["A"]) "Empty" []
                {| ctx_board := Demo.listed 12 "Empty" 1 "Apps";
                   ctx_columns := Demo.columnsOfBoard 12; ctx_tasks := [] |}
                _ _ _ _ _ eq_refl eq_refl eq_refl eq_refl) as (_ & Hposted & _).
    destruct (Hposted payload reply Hin) as (_ & Hcolumn & _). exact Hcolumn.
Defined.

(** C2 as amended, on the sample: "ann" resolves to Ann Lee, the first
    member whose name contains it. *)
Lemma createTaskDetailed_assignee_first_match_witness :
  Demo.requestedTitles (Demo.trace (Demo.create (Demo.onRelease ["A"]))) = ["T"; "A"] /\
  (forall payload reply,
     In (POST_tasks payload, reply) (Demo.trace (Demo.create (Demo.onRelease ["A"]))) ->
     td_assignees payload = Some [7%positive]).
Proof.
  split; [reflexivity|].
  assert (Hmembers : In (GET_members, Replied (MembersBody (Some Demo.members)))
                        (Demo.trace (Demo.create (Demo.onRelease ["A"]))))
    by (do 6 right; left; reflexivity).
  destruct (createTaskDetailed_assignee_first_match Demo.transport Demo.toLowerCase
              Demo.parseInt (Demo.onRelease ["A"]) "ann" [] _ _ _ _
              eq_refl eq_refl Hmembers) as (_ & _ & Hposted).
  exact Hposted.
Defined.

(** C6 as amended, on the sample: the subtasks A and C are created in that
    order under the primary task, number 900, which is returned.  With
    the titles A, B, C, of which the remote rejects B, the creations stop
    at B and the operation throws. *)
Lemma createTaskDetailed_subtasks_in_order_witness :
  let t := Demo.trace (Demo.create (Demo.onRelease ["A"; "C"])) in
  let main := Demo.mainPayload ["A"; "C"] in
  let t' := Demo.trace (Demo.create (Demo.onRelease ["A"; "B"; "C"])) in
  (Forall2 (fun stTitle (x : Exchange) =>
              exists payload,
                fst x = POST_tasks payload /\
                td_title payload = stTitle /\
                td_parentId payload = Some 900%positive /\
                td_projectId payload = Some 1%positive /\
                td_boardId payload = Some 10%positive /\
                td_boardColumnId payload = Some 100%positive /\
                td_assignees payload = Some [7%positive])
           ["A"; "C"] (Demo.afterMutation t) /\
   Forall answered (removelast (Demo.afterMutation t)) /\
   Demo.outcome (Demo.create (Demo.onRelease ["A"; "C"]))
     = Returned (Some (Demo.created [] main))) /\
  (Demo.requestedTitles t' = ["T"; "A"; "B"] /\
   exists f, Demo.outcome (Demo.create (Demo.onRelease ["A"; "B"; "C"]))
             = Thrown (RequestFailed f)).
Proof.
  intros t main t'. split.
  - destruct (createTaskDetailed_subtasks_in_order Demo.transport Demo.toLowerCase
                Demo.parseInt (Demo.onRelease ["A"; "C"]) []
                (Demo.outcome (Demo.create (Demo.onRelease ["A"; "C"])))
                (snd (fst (Demo.run (Demo.create (Demo.onRelease ["A"; "C"])))))
                t (Demo.untilMutation t) main (Demo.mainReply ["A"; "C"])
                (Demo.afterMutation t)
                eq_refl eq_refl eq_refl) as (_ & Hcalls & Hanswered & Hall & _).
    split; [exact Hcalls|]. split; [exact Hanswered|].
    destruct Hall as (_ & _ & Hreturned); [repeat constructor|].
    exact (Hreturned _ eq_refl).
  - split; [reflexivity|].
    destruct (createTaskDetailed_subtasks_in_order Demo.transport Demo.toLowerCase
                Demo.parseInt (Demo.onRelease ["A"; "B"; "C"]) []
                (Demo.outcome (Demo.create (Demo.onRelease ["A"; "B"; "C"])))
                (snd (fst (Demo.run (Demo.create (Demo.onRelease ["A"; "B"; "C"])))))
                t' (Demo.untilMutation t') (Demo.mainPayload ["A"; "B"; "C"])
                (Demo.mainReply ["A"; "B"; "C"]) (Demo.afterMutation t')
                eq_refl eq_refl eq_refl) as (_ & _ & _ & _ & Hthrown).
    apply Hthrown. intros Hall.
    inversion Hall as [|x1 l1 _ Hrest]; subst.
    inversion Hrest as [|x2 l2 Hfailed _]; subst. exact Hfailed.
Defined.

(** C1 as amended, on the sample: the remote rejects the title B; A was
    created, B fails and its failure is thrown, C is never attempted. *)
Lemma createTaskDetailed_subtask_failure_witness :
  let subs := ["A"; "B"; "C"] in
  let t := Demo.trace (Demo.create (Demo.onRelease subs)) in
  Demo.outcome (Demo.create (Demo.onRelease subs)) = Thrown (RequestFailed Demo.serverError) /\
  exists done stTitle rest,
    subs = done ++ stTitle :: rest /\
    Forall2 (subtaskCall (Demo.mainPayload subs) (taskOf (Demo.mainReply subs))) done
            (firstn 1 (Demo.afterMutation t)) /\
    subtaskCall (Demo.mainPayload subs) (taskOf (Demo.mainReply subs)) stTitle
                (Demo.subRequest subs "B", Failed Demo.serverError).
Proof.
  intros subs t.
  destruct (createTaskDetailed_subtask_failure Demo.transport Demo.toLowerCase Demo.parseInt
              (Demo.onRelease subs) []
              (Demo.outcome (Demo.create (Demo.onRelease subs)))
              (snd (fst (Demo.run (Demo.create (Demo.onRelease subs)))))
              t (Demo.untilMutation t) (Demo.mainPayload subs) (Demo.mainReply subs)
              (firstn 1 (Demo.afterMutation t)) (Demo.subRequest subs "B") Demo.serverError []
              eq_refl eq_refl eq_refl) as (Hthrown & _ & _ & Hcalls).
  split; [exact Hthrown|exact Hcalls].
Defined.

(** C1, refuted on the sample.  The primary task T is created and so is the
    subtask A; the creation of B fails.  The operation then returns
    nothing, neither the primary task nor a report: it throws the
    transport failure of B, whose message does not mention the primary
    task; and C is never attempted. *)
Lemma subtask_failure_is_thrown :
  let run := Demo.run (Demo.create (Demo.onRelease ["A"; "B"; "C"])) in
  In (POST_tasks (Demo.mainPayload ["A"; "B"; "C"]), Replied (Demo.mainReply ["A"; "B"; "C"]))
     (snd run) /\
  In (Demo.subRequest ["A"; "B"; "C"] "B", Failed Demo.serverError) (snd run) /\
  fst (fst run) = Thrown (RequestFailed Demo.serverError) /\
  message (RequestFailed Demo.serverError) = "500 Internal Server Error: rejected" /\
  ~ (exists mainTask, fst (fst run) = Returned mainTask) /\
  ~ (exists payload reply, In (POST_tasks payload, reply) (snd run) /\ td_title payload = "C").
Proof.
  cbv zeta. split; [do 7 right; left; reflexivity|].
  split; [do 9 right; left; reflexivity|].
  split; [reflexivity|]. split; [reflexivity|]. split.
  - intros (mainTask & H). discriminate H.
  - intros (payload & reply & Hin & Htitle).
    vm_compute in Hin. in_trace; discriminate Htitle.
Qed.

(** C2, refuted on the sample.  Exactly one user is named "ann" up to case
    (user 8) and two users have a name containing "ann"; [findUser]
    returns user 7, the first whose name contains the query: the exact
    match gets no precedence and the two matches are not reported as
    ambiguous, the task is created and assigned to user 7. *)
Lemma findUser_takes_first_substring_match :
  let users := map userOf Demo.members in
  let q := Demo.toLowerCase "ann" in
  filter (fun u => String.eqb (Demo.toLowerCase (user_name u)) q) users = [Demo.ann] /\
  filter (fun u => Js.includes (Demo.toLowerCase (user_name u)) q) users
    = [Demo.annLee; Demo.ann] /\
  Demo.outcome (findUser Demo.transport Demo.toLowerCase "ann") = Returned (Some Demo.annLee) /\
  Demo.outcome (Demo.create (Demo.onRelease []))
    = Returned (taskOf (Demo.mainReply [])) /\
  td_assignees (Demo.mainPayload []) = Some [7%positive] /\
  In (POST_tasks (Demo.mainPayload []), Replied (Demo.mainReply []))
     (Demo.trace (Demo.create (Demo.onRelease []))).
Proof.
  cbv zeta. repeat split. do 7 right. left. reflexivity.
Qed.


(** C6, refuted on the sample.  The primary task is created; the creation
    of the first subtask, B, fails.  No creation is issued for the second
    title, C, and the operation does not return the primary task: it
    throws. *)
Lemma failed_subtask_stops_the_loop :
  let run := Demo.run (Demo.create (Demo.onRelease ["B"; "C"])) in
  In (POST_tasks (Demo.mainPayload ["B"; "C"]), Replied (Demo.mainReply ["B"; "C"])) (snd run) /\
  Demo.requestedTitles (snd run) = ["T"; "B"] /\
  length (Demo.afterMutation (snd run)) <> length ["B"; "C"] /\
  fst (fst run) <> Returned (taskOf (Demo.mainReply ["B"; "C"])).
Proof.
  cbv zeta. split; [do 7 right; left; reflexivity|].
  split; [reflexivity|]. split; [discriminate|discriminate].
Qed.

(** * The URL of a request *)

Module HttpFacts.

Lemma startsWith_nil s : Js.startsWith s EmptyString = true.
Proof. destruct s; reflexivity. Qed.

Lemma startsWith_slash path : Js.startsWith ("/" ++ path) "/" = true.
Proof. simpl. apply startsWith_nil. Qed.

Lemma validParams_app a b :
  Http.validParams (a ++ b) = Http.validParams a ++ Http.validParams b.
Proof. apply flat_map_app. Qed.

Lemma validParams_all_null params :
  Forall (fun p : string * option string => snd p = None) params ->
  Http.validParams params = [].
Proof.
  induction 1 as [|[key value] params Hnull _ IH]; [reflexivity|].
  simpl in *. subst value. exact IH.
Qed.

End HttpFacts.

(** The URL [request] fetches is the base URL, a slash, and the rest: the
    leading slash of the path is optional, a path given without it goes to
    the same URL as the path given with it. *)
Theorem urlOf_leading_slash apiUrl encode path params :
  (exists rest, Http.urlOf apiUrl encode path params = (apiUrl ++ "/" ++ rest)%string) /\
  (Js.startsWith path "/" = false ->
   Http.urlOf apiUrl encode ("/" ++ path) params = Http.urlOf apiUrl encode path params).
Proof.
  split.
  - assert (Hpath : exists p,
              (if Js.startsWith path "/" then path else ("/" ++ path)%string)
                = ("/" ++ p)%string).
    { destruct (Js.startsWith path "/") eqn:E; [|eauto].
      destruct path as [|c path]; [discriminate|].
      change (Ascii.eqb "/" c && Js.startsWith path EmptyString = true) in E.
      apply andb_true_iff in E. destruct E as [E _].
      apply Ascii.eqb_eq in E. subst c. exists path. reflexivity. }
    destruct Hpath as [p Hp]. unfold Http.urlOf. rewrite Hp.
    destruct params as [params|]; [|eauto].
    cbv zeta. destruct (Js.truthy _); [|eauto].
    exists (p ++ "?" ++ Http.queryOf encode (Http.validParams params))%string.
    rewrite !JsFacts.append_assoc. reflexivity.
  - intros Hbare. unfold Http.urlOf.
    rewrite HttpFacts.startsWith_slash, Hbare. reflexivity.
Qed.

(** Parameters whose value is [null] or [undefined] are left out of the
    query string: the URL is the one of the request without them, and when
    every parameter is so, the one of the request without parameters, with
    no question mark. *)
Theorem urlOf_drops_null_params apiUrl encode path :
  (forall before key after,
     Http.urlOf apiUrl encode path (Some (before ++ (key, None) :: after)) =
     Http.urlOf apiUrl encode path (Some (before ++ after))) /\
  (forall params,
     Forall (fun p : string * option string => snd p = None) params ->
     Http.urlOf apiUrl encode path (Some params) = Http.urlOf apiUrl encode path None).
Proof.
  split.
  - intros before key after. unfold Http.urlOf.
    rewrite !HttpFacts.validParams_app. reflexivity.
  - intros params Hnull. unfold Http.urlOf.
    rewrite (HttpFacts.validParams_all_null _ Hnull). reflexivity.
Qed.

(** * Stripping HTML *)

Module HtmlFacts.

Lemma chars_app a b : Html.chars (a ++ b) = Html.chars a ++ Html.chars b.
Proof.
  unfold Html.chars. induction a as [|c a IH]; simpl; [reflexivity|]. now rewrite IH.
Qed.

Lemma append_nil_r s : (s ++ EmptyString)%string = s.
Proof. induction s as [|c s IH]; simpl; [reflexivity|]. now rewrite IH. Qed.

Lemma stripTags_no_open s : forall inTag,
  ~ In "<"%char (Html.chars (Html.stripTags inTag s)).
Proof.
  induction s as [|c s IH]; intros inTag; simpl; [intros []|].
  destruct inTag.
  - destruct (Ascii.eqb c ">"); apply IH.
  - destruct (Ascii.eqb c "<") eqn:E; [apply IH|].
    apply Ascii.eqb_neq in E. intros [H|H]; [congruence|]. exact (IH false H).
Qed.

Lemma replaceFrom_chars pat rep s : forall skip c,
  In c (Html.chars (Html.replaceFrom pat rep skip s)) ->
  In c (Html.chars s) \/ In c (Html.chars rep).
Proof.
  induction s as [|d s IH]; intros skip c; [intros []|].
  destruct skip as [|k].
  - change (Html.replaceFrom pat rep 0 (String d s))
      with (if Js.startsWith (String d s) pat
            then (rep ++ Html.replaceFrom pat rep (String.length pat - 1) s)%string
            else String d (Html.replaceFrom pat rep 0 s)).
    destruct (Js.startsWith (String d s) pat).
    + rewrite chars_app. intros H. apply in_app_or in H. destruct H as [H|H]; [auto|].
      destruct (IH _ _ H); [left; right|]; auto.
    + intros [H|H]; [left; left; exact H|].
      destruct (IH _ _ H); [left; right|]; auto.
  - simpl. intros H. destruct (IH _ _ H); [left; right|]; auto.
Qed.

Lemma trimStart_chars s c : In c (Html.chars (Html.trimStart s)) -> In c (Html.chars s).
Proof.
  induction s as [|d s IH]; simpl; [auto|].
  destruct (Html.isSpace d); [intros H; right; exact (IH H)|auto].
Qed.

Lemma trimEnd_chars s c : In c (Html.chars (Html.trimEnd s)) -> In c (Html.chars s).
Proof.
  induction s as [|d s IH]; simpl; [auto|].
  destruct (Html.trimEnd s) as [|e rest].
  - destruct (Html.isSpace d); [intros []|intros [H|[]]; left; exact H].
  - intros [H|H]; [left; exact H|right; exact (IH H)].
Qed.

Lemma stripTags_plain s :
  ~ In "<"%char (Html.chars s) -> Html.stripTags false s = s.
Proof.
  induction s as [|c s IH]; simpl; [reflexivity|]. intros Hno.
  destruct (Ascii.eqb c "<") eqn:E.
  - apply Ascii.eqb_eq in E. destruct Hno. left. exact E.
  - rewrite IH; [reflexivity|]. intros H. apply Hno. right. exact H.
Qed.

Lemma stripTags_app_plain a x :
  ~ In "<"%char (Html.chars a) ->
  Html.stripTags false (a ++ x) = (a ++ Html.stripTags false x)%string.
Proof.
  induction a as [|c a IH]; simpl; [reflexivity|]. intros Hno.
  destruct (Ascii.eqb c "<") eqn:E.
  - apply Ascii.eqb_eq in E. destruct Hno. left. exact E.
  - rewrite IH; [reflexivity|]. intros H. apply Hno. right. exact H.
Qed.

Lemma stripTags_unclosed rest :
  ~ In ">"%char (Html.chars rest) -> Html.stripTags true rest = EmptyString.
Proof.
  induction rest as [|c rest IH]; simpl; [reflexivity|]. intros Hno.
  destruct (Ascii.eqb c ">") eqn:E.
  - apply Ascii.eqb_eq in E. destruct Hno. left. exact E.
  - apply IH. intros H. apply Hno. right. exact H.
Qed.

(** A pattern whose first character does not occur in the string has no
    match in it. *)
Lemma replaceAll_plain first pat rep s :
  ~ In first (Html.chars s) -> Html.replaceAll (String first pat) rep s = s.
Proof.
  unfold Html.replaceAll. induction s as [|c s IH]; [reflexivity|]. intros Hno.
  change (Html.replaceFrom (String first pat) rep 0 (String c s))
    with (if Js.startsWith (String c s) (String first pat)
          then (rep ++ Html.replaceFrom (String first pat) rep
                         (String.length (String first pat) - 1) s)%string
          else String c (Html.replaceFrom (String first pat) rep 0 s)).
  assert (E : Js.startsWith (String c s) (String first pat) = false).
  { simpl. destruct (Ascii.eqb first c) eqn:E; [|reflexivity].
    apply Ascii.eqb_eq in E. destruct Hno. left. symmetry. exact E. }
  rewrite E, IH; [reflexivity|]. intros H. apply Hno. right. exact H.
Qed.

Lemma length_trimStart s : String.length (Html.trimStart s) <= String.length s.
Proof.
  induction s as [|c s IH]; simpl; [lia|]. destruct (Html.isSpace c); simpl; lia.
Qed.

Lemma trimStart_head c s : Html.trimStart (String c s) = String c s -> Html.isSpace c = false.
Proof.
  simpl. destruct (Html.isSpace c); [|reflexivity]. intros H.
  pose proof (length_trimStart s) as Hlen. rewrite H in Hlen. simpl in Hlen. lia.
Qed.

Lemma trimStart_idem s : Html.trimStart (Html.trimStart s) = Html.trimStart s.
Proof.
  induction s as [|c s IH]; simpl; [reflexivity|].
  destruct (Html.isSpace c) eqn:E; [exact IH|]. simpl. rewrite E. reflexivity.
Qed.

Lemma trimEnd_idem s : Html.trimEnd (Html.trimEnd s) = Html.trimEnd s.
Proof.
  induction s as [|c s IH]; simpl; [reflexivity|].
  destruct (Html.trimEnd s) as [|d rest] eqn:E.
  - destruct (Html.isSpace c) eqn:Ec; simpl; [reflexivity|]. rewrite Ec. reflexivity.
  - simpl in *. rewrite IH. reflexivity.
Qed.

Lemma trimEnd_keeps_start s :
  Html.trimStart s = s -> Html.trimStart (Html.trimEnd s) = Html.trimEnd s.
Proof.
  destruct s as [|c s]; [reflexivity|]. intros H. apply trimStart_head in H.
  simpl. destruct (Html.trimEnd s); [rewrite H|]; simpl; rewrite H; reflexivity.
Qed.

(** What [trim] returns has no white space at either end. *)
Lemma trim_trimmed s :
  Html.trimStart (Html.trim s) = Html.trim s /\ Html.trimEnd (Html.trim s) = Html.trim s.
Proof.
  unfold Html.trim. split; [|apply trimEnd_idem].
  apply trimEnd_keeps_start, trimStart_idem.
Qed.

End HtmlFacts.

(** What [stripHtml] returns never contains the character [<]. *)
Theorem stripHtml_no_open_bracket html :
  ~ In "<"%char (Html.chars (Html.stripHtml html)).
Proof.
  unfold Html.stripHtml. destruct (Js.given html) as [text|]; [|intros []].
  unfold Html.trim, Html.replaceAll. intros H.
  apply HtmlFacts.trimEnd_chars, HtmlFacts.trimStart_chars in H.
  apply HtmlFacts.replaceFrom_chars in H. destruct H as [H|H].
  - apply HtmlFacts.replaceFrom_chars in H. destruct H as [H|H].
    + exact (HtmlFacts.stripTags_no_open _ _ H).
    + destruct H as [H|[]]. discriminate H.
  - destruct H as [H|[]]. discriminate H.
Qed.

(** On a text that contains neither [<] nor [&], [stripHtml] removes the
    white space at both ends and nothing else. *)
Theorem stripHtml_plain_text text :
  ~ In "<"%char (Html.chars text) ->
  ~ In "&"%char (Html.chars text) ->
  Html.stripHtml (Some text) = Html.trim text.
Proof.
  intros Hopen Hamp. unfold Html.stripHtml.
  destruct text as [|c text]; [reflexivity|].
  change (Js.given (Some (String c text))) with (Some (String c text)). cbv beta iota.
  rewrite (HtmlFacts.stripTags_plain _ Hopen).
  rewrite (HtmlFacts.replaceAll_plain "&" "nbsp;" " " _ Hamp).
  rewrite (HtmlFacts.replaceAll_plain "&" "quot;" Js.dquote _ Hamp).
  reflexivity.
Qed.

(** A [<] that no [>] follows takes everything after it with it: when
    [text] has no [<] and [rest] no [>], stripping [text<rest] gives what
    stripping [text] gives. *)
Theorem stripHtml_unclosed_tag text rest :
  ~ In "<"%char (Html.chars text) ->
  ~ In ">"%char (Html.chars rest) ->
  Html.stripHtml (Some (text ++ "<" ++ rest)%string) = Html.stripHtml (Some text).
Proof.
  intros Hopen Hclose.
  assert (Hstrip : Html.stripTags false (text ++ "<" ++ rest)%string = text).
  { rewrite (HtmlFacts.stripTags_app_plain _ _ Hopen). simpl.
    rewrite (HtmlFacts.stripTags_unclosed _ Hclose). apply HtmlFacts.append_nil_r. }
  unfold Html.stripHtml.
  assert (Hgiven : Js.given (Some (text ++ "<" ++ rest)%string)
                   = Some (text ++ "<" ++ rest)%string)
    by (destruct text; reflexivity).
  rewrite Hgiven. cbv beta iota. rewrite Hstrip.
  destruct text as [|c text]; [reflexivity|].
  change (Js.given (Some (String c text))) with (Some (String c text)). cbv beta iota.
  rewrite (HtmlFacts.stripTags_plain _ Hopen). reflexivity.
Qed.

(** * The command-line tool *)

Module CliFacts.

(** The order [sort] puts the elements in. *)
Local Abbreviation ordered :=
  (fun a b => String.leb (Cli.display a) (Cli.display b) = true).

Lemma sameValue_eq a b : Cli.sameValue a b = true <-> a = b.
Proof.
  destruct a as [s|i], b as [s'|i']; simpl; try (split; discriminate).
  - rewrite String.eqb_eq. split; congruence.
  - rewrite Nat.eqb_eq. split; congruence.
Qed.

Lemma seen_In v seen : existsb (Cli.sameValue v) seen = true <-> In v seen.
Proof.
  rewrite existsb_exists. split.
  - intros (x & Hx & E). apply sameValue_eq in E. subst x. exact Hx.
  - intros H. exists v. split; [exact H|]. apply sameValue_eq. reflexivity.
Qed.

Lemma uniqFrom_In l : forall seen v,
  In v (Cli.uniqFrom seen l) <-> In v l /\ ~ In v seen.
Proof.
  induction l as [|x l IH]; intros seen v; simpl; [tauto|].
  destruct (existsb (Cli.sameValue x) seen) eqn:E.
  - apply seen_In in E. rewrite IH. split; [tauto|].
    intros [[->|H] Hnew]; tauto.
  - assert (Hx : ~ In x seen) by (rewrite <- seen_In; congruence).
    simpl. rewrite IH. simpl. split.
    + intros [->|(H & Hnew)]; tauto.
    + intros [[->|H] Hnew]; [tauto|].
      destruct (Cli.sameValue x v) eqn:Exv.
      * apply sameValue_eq in Exv. tauto.
      * right. split; [exact H|]. intros [->|Hs]; [|tauto].
        assert (Cli.sameValue v v = true) by (apply sameValue_eq; reflexivity). congruence.
Qed.

Lemma uniqFrom_NoDup l : forall seen, NoDup (Cli.uniqFrom seen l).
Proof.
  induction l as [|x l IH]; intros seen; simpl; [constructor|].
  destruct (existsb (Cli.sameValue x) seen); [apply IH|].
  constructor; [|apply IH]. rewrite uniqFrom_In. simpl. tauto.
Qed.

Lemma insert_perm v l : Permutation (Cli.insert v l) (v :: l).
Proof.
  induction l as [|x l IH]; simpl; [reflexivity|].
  destruct (String.leb (Cli.display v) (Cli.display x)); [reflexivity|].
  rewrite IH. apply perm_swap.
Qed.

Lemma sort_perm l : Permutation (Cli.sort l) l.
Proof.
  induction l as [|v l IH]; simpl; [reflexivity|].
  rewrite insert_perm. constructor. exact IH.
Qed.

Lemma insert_sorted v l : Sorted ordered l -> Sorted ordered (Cli.insert v l).
Proof.
  induction 1 as [|x l Hl IH Hx]; simpl; [repeat constructor|].
  destruct (String.leb (Cli.display v) (Cli.display x)) eqn:E.
  - constructor; [constructor; assumption|]. constructor. exact E.
  - constructor; [exact IH|].
    assert (Hxv : String.leb (Cli.display x) (Cli.display v) = true)
      by (destruct (String.leb_total (Cli.display v) (Cli.display x)); congruence).
    destruct l as [|y l]; simpl; [constructor; exact Hxv|].
    destruct (String.leb (Cli.display v) (Cli.display y)); constructor;
      [exact Hxv|inversion Hx; assumption].
Qed.

Lemma sort_sorted l : Sorted ordered (Cli.sort l).
Proof.
  induction l as [|v l IH]; simpl; [constructor|]. apply insert_sorted, IH.
Qed.

(** The elements of [getTags]: those of [tags] and those of the
    operations. *)
Lemma getTags_In spec v :
  In v (Cli.getTags spec) <->
  In v (Cli.tagValues 0 (match Cli.spec_tags spec with Some tags => tags | None => [] end)) \/
  exists paths path pathItem,
    Cli.spec_paths spec = Some paths /\ In (path, pathItem) paths /\
    In v (Cli.operationTags pathItem).
Proof.
  unfold Cli.getTags, Cli.uniq.
  assert (Hsort : forall l, In v (Cli.sort l) <-> In v l).
  { intros l. split; apply Permutation_in; [|apply Permutation_sym]; apply sort_perm. }
  rewrite Hsort, uniqFrom_In, in_app_iff, uniqFrom_In.
  assert (Hpaths : In v match Cli.spec_paths spec with
                        | Some paths =>
                            flat_map (fun entry => Cli.operationTags (snd entry)) paths
                        | None => []
                        end <->
                   exists paths path pathItem,
                     Cli.spec_paths spec = Some paths /\ In (path, pathItem) paths /\
                     In v (Cli.operationTags pathItem)).
  { destruct (Cli.spec_paths spec) as [paths|].
    - rewrite in_flat_map. split.
      + intros ([path pathItem] & Hin & Hv). exists paths, path, pathItem. auto.
      + intros (paths' & path & pathItem & E & Hin & Hv). injection E as <-.
        exists (path, pathItem). auto.
    - split; [intros []|]. intros (paths & ? & ? & E & _). discriminate. }
  rewrite Hpaths. simpl. tauto.
Qed.

Lemma operationTags_In pathItem tag :
  In (Cli.Name tag) (Cli.operationTags pathItem) <->
  exists method operation tags,
    In (method, Some operation) pathItem /\ Cli.op_tags operation = Some tags /\ In tag tags.
Proof.
  unfold Cli.operationTags. rewrite in_flat_map. split.
  - intros ([method [operation|]] & Hin & Hv); simpl in Hv; [|destruct Hv].
    destruct (Cli.op_tags operation) as [tags|] eqn:E; [|destruct Hv].
    apply in_map_iff in Hv. destruct Hv as (x & Ex & Hx). injection Ex as ->.
    exists method, operation, tags. auto.
  - intros (method & operation & tags & Hin & E & Htag).
    exists (method, Some operation). split; [exact Hin|]. simpl. rewrite E.
    apply in_map, Htag.
Qed.

Lemma split_nonempty sep s : Cli.split sep s <> [].
Proof.
  destruct s as [|c s]; simpl; [discriminate|].
  destruct (Ascii.eqb c sep); [discriminate|]. destruct (Cli.split sep s); discriminate.
Qed.

Lemma split_length sep s :
  length (Cli.split sep s) = S (count_occ ascii_dec (Html.chars s) sep).
Proof.
  induction s as [|c s IH]; [reflexivity|].
  change (Html.chars (String c s)) with (c :: Html.chars s). simpl.
  destruct (Ascii.eqb c sep) eqn:E.
  - apply Ascii.eqb_eq in E. subst c. destruct (ascii_dec sep sep); [|congruence].
    simpl. rewrite IH. reflexivity.
  - apply Ascii.eqb_neq in E. destruct (ascii_dec c sep); [congruence|].
    pose proof (split_nonempty sep s). destruct (Cli.split sep s); [congruence|exact IH].
Qed.

(** Splitting a field followed by the separator and more. *)
Lemma split_field sep field rest :
  ~ In sep (Html.chars field) ->
  Cli.split sep (field ++ String sep rest) = field :: Cli.split sep rest.
Proof.
  induction field as [|c field IH]; intros Hno.
  - simpl. rewrite Ascii.eqb_refl. reflexivity.
  - change (Cli.split sep (String c (field ++ String sep rest))
            = String c field :: Cli.split sep rest).
    simpl. destruct (Ascii.eqb c sep) eqn:E.
    + apply Ascii.eqb_eq in E. destruct Hno. left. exact E.
    + rewrite IH; [reflexivity|]. intros H. apply Hno. right. exact H.
Qed.

Lemma split_last sep field :
  ~ In sep (Html.chars field) -> Cli.split sep field = [field].
Proof.
  induction field as [|c field IH]; intros Hno; [reflexivity|].
  simpl. destruct (Ascii.eqb c sep) eqn:E.
  - apply Ascii.eqb_eq in E. destruct Hno. left. exact E.
  - rewrite IH; [reflexivity|]. intros H. apply Hno. right. exact H.
Qed.

(** Splitting what [join] wrote with a comma and a space: the fields after
    the first keep the space. *)
Lemma split_join title titles :
  Forall (fun t => ~ In ","%char (Html.chars t)) (title :: titles) ->
  Cli.split "," (Js.join ", " (title :: titles)) = title :: map (String " ") titles.
Proof.
  revert title. induction titles as [|t' titles IH]; intros title Hall.
  - inversion Hall; subst. apply split_last. assumption.
  - inversion Hall as [|? ? Hno Hrest]; subst.
    change (Js.join ", " (title :: t' :: titles))
      with (title ++ String "," (String " " (Js.join ", " (t' :: titles))))%string.
    rewrite (split_field _ _ _ Hno). f_equal.
    change (Cli.split "," (String " " (Js.join ", " (t' :: titles))))
      with (match Cli.split "," (Js.join ", " (t' :: titles)) with
            | field :: fields => String " " field :: fields
            | [] => [String " " EmptyString]
            end).
    rewrite (IH _ Hrest). reflexivity.
Qed.

Lemma length_filter_disjoint A (p q : A -> bool) l :
  (forall x, p x = true -> q x = false) ->
  length (filter (fun x => p x || q x) l) = length (filter p l) + length (filter q l).
Proof.
  intros Hdisjoint. induction l as [|x l IH]; simpl; [reflexivity|].
  destruct (p x) eqn:Ep; simpl.
  - rewrite (Hdisjoint _ Ep). simpl. lia.
  - destruct (q x); simpl; lia.
Qed.

(** Joining the fields with the separator gives the string back. *)
Lemma split_concat sep s :
  String.concat (String sep EmptyString) (Cli.split sep s) = s.
Proof.
  induction s as [|c s IH]; [reflexivity|]. simpl.
  pose proof (split_nonempty sep s) as Hne.
  destruct (Ascii.eqb c sep) eqn:E.
  - apply Ascii.eqb_eq in E. subst c.
    destruct (Cli.split sep s) as [|field fields]; [congruence|].
    change (String.concat (String sep EmptyString) (EmptyString :: field :: fields))
      with (String sep (String.concat (String sep EmptyString) (field :: fields))).
    rewrite IH. reflexivity.
  - destruct (Cli.split sep s) as [|field fields]; [congruence|].
    rewrite <- IH. destruct fields; reflexivity.
Qed.

Lemma split_no_sep sep s :
  Forall (fun field => ~ In sep (Html.chars field)) (Cli.split sep s).
Proof.
  induction s as [|c s IH]; simpl.
  - constructor; [intros []|constructor].
  - destruct (Ascii.eqb c sep) eqn:E.
    + constructor; [intros []|exact IH].
    + pose proof (split_nonempty sep s) as Hne.
      destruct (Cli.split sep s) as [|field fields]; [congruence|].
      inversion IH as [|? ? Hfield Hfields]; subst. constructor; [|exact Hfields].
      intros [Hc|Hin]; [|exact (Hfield Hin)].
      apply Ascii.eqb_neq in E. congruence.
Qed.

(** The white space of [trim], by code unit. *)
Lemma isSpace_codes c :
  Html.isSpace c = existsb (Nat.eqb (nat_of_ascii c)) [9; 10; 11; 12; 13; 32; 160].
Proof. destruct c as [[] [] [] [] [] [] [] []]; reflexivity. Qed.

Lemma trimStart_prefix s :
  exists before, s = (before ++ Html.trimStart s)%string /\
                 forallb Html.isSpace (Html.chars before) = true.
Proof.
  induction s as [|c s (before & Hs & Hspaces)]; [exists EmptyString; auto|].
  simpl. destruct (Html.isSpace c) eqn:E.
  - exists (String c before). simpl. rewrite <- Hs. unfold Html.chars in *. simpl.
    rewrite E, Hspaces. auto.
  - exists EmptyString. auto.
Qed.

Lemma trimEnd_suffix s :
  exists after, s = (Html.trimEnd s ++ after)%string /\
                forallb Html.isSpace (Html.chars after) = true.
Proof.
  induction s as [|c s (after & Hs & Hspaces)]; [exists EmptyString; auto|].
  simpl. destruct (Html.trimEnd s) as [|d rest].
  - simpl in Hs. subst after. destruct (Html.isSpace c) eqn:E.
    + exists (String c s). unfold Html.chars in *. simpl. rewrite E, Hspaces. auto.
    + exists s. auto.
  - exists after. split; [|exact Hspaces]. simpl in *. f_equal. exact Hs.
Qed.

Lemma append_last_inv rest c s d :
  (rest ++ String c EmptyString)%string = String d s ->
  (rest = EmptyString /\ s = EmptyString /\ c = d) \/
  (exists rest', rest = String d rest' /\ s = (rest' ++ String c EmptyString)%string).
Proof.
  destruct rest as [|e rest]; simpl; intros H; injection H as -> <-; eauto.
Qed.

Lemma trimEnd_last s : forall rest c,
  Html.trimEnd s = (rest ++ String c EmptyString)%string -> Html.isSpace c = false.
Proof.
  induction s as [|d s IH]; intros rest c; simpl.
  - destruct rest; discriminate.
  - destruct (Html.trimEnd s) as [|e r] eqn:E.
    + destruct (Html.isSpace d) eqn:Ed; [destruct rest; discriminate|].
      intros H. symmetry in H. apply append_last_inv in H.
      destruct H as [(_ & _ & ->)|(rest' & _ & H)]; [exact Ed|].
      destruct rest'; discriminate.
    + intros H. symmetry in H. apply append_last_inv in H.
      destruct H as [(_ & H & _)|(rest' & _ & H)]; [discriminate|].
      exact (IH rest' c H).
Qed.

(** What [trim] does to a string: it takes white space away at both ends,
    up to a character that is not white space. *)
Lemma trim_spec s :
  exists before after,
    s = (before ++ Html.trim s ++ after)%string /\
    forallb Html.isSpace (Html.chars before) = true /\
    forallb Html.isSpace (Html.chars after) = true /\
    (forall c rest, Html.trim s = String c rest -> Html.isSpace c = false) /\
    (forall rest c, Html.trim s = (rest ++ String c EmptyString)%string ->
       Html.isSpace c = false).
Proof.
  destruct (trimStart_prefix s) as (before & Hs & Hbefore).
  destruct (trimEnd_suffix (Html.trimStart s)) as (after & Ht & Hafter).
  exists before, after. unfold Html.trim. rewrite <- Ht, <- Hs.
  repeat split; auto.
  - intros c rest H. apply (HtmlFacts.trimStart_head c rest).
    rewrite <- H. apply HtmlFacts.trimEnd_keeps_start, HtmlFacts.trimStart_idem.
  - intros rest c H. exact (trimEnd_last _ _ _ H).
Qed.

Lemma forallb_same A (f g : A -> bool) l :
  (forall x, f x = g x) -> forallb f l = forallb g l.
Proof. intros H. induction l as [|x l IH]; simpl; [reflexivity|]. rewrite H, IH. reflexivity. Qed.

Lemma Forall2_map_r A B (R : A -> B -> Prop) (f : A -> B) l :
  (forall x, R x (f x)) -> Forall2 R l (map f l).
Proof. intros H. induction l; simpl; constructor; auto. Qed.

(** A list is made of the elements that pass a test and those that fail
    it. *)
Lemma filter_split A (p q : A -> bool) l :
  (forall x, p x = true -> q x = true) ->
  Permutation (filter p l ++ filter (fun x => negb (p x) && q x) l) (filter q l).
Proof.
  intros Hpq. induction l as [|x l IH]; simpl; [constructor|].
  destruct (p x) eqn:Ep; simpl.
  - rewrite (Hpq _ Ep). constructor. exact IH.
  - destruct (q x); [|exact IH].
    apply Permutation_sym, Permutation_cons_app, Permutation_sym, IH.
Qed.

(** The tasks of a board are those shown under its columns and those that
    are in none of them. *)
Lemma shown_and_hidden columns tasks :
  NoDup (map column_id columns) ->
  Permutation
    (flat_map (fun col => filter (Cli.inColumn col) tasks) columns
       ++ filter (fun t => negb (Cli.inSomeColumn columns t)) tasks)
    tasks.
Proof.
  induction columns as [|col columns IH]; intros Hdistinct; simpl.
  - induction tasks as [|t tasks IHt]; simpl; [constructor|constructor; exact IHt].
  - inversion Hdistinct as [|? ? Hnew Hrest]; subst.
    rewrite <- app_assoc.
    eapply Permutation_trans; [apply Permutation_app_swap_app|].
    eapply Permutation_trans; [|exact (IH Hrest)].
    apply Permutation_app_head.
    rewrite (filter_ext (fun t => negb (Cli.inSomeColumn (col :: columns) t))
                        (fun t => negb (Cli.inColumn col t)
                                  && negb (Cli.inSomeColumn columns t)))
      by (intros t; apply negb_orb).
    apply (filter_split _ (Cli.inColumn col) (fun t => negb (Cli.inSomeColumn columns t))).
    intros t Hcol. unfold Cli.inSomeColumn.
    destruct (existsb (fun c => Cli.inColumn c t) columns) eqn:E; [|reflexivity].
    apply existsb_exists in E. destruct E as (c & Hc & Hin).
    unfold Cli.inColumn in *. destruct (task_boardColumnId t) as [i|]; [|discriminate].
    apply Pos.eqb_eq in Hcol, Hin. destruct Hnew. rewrite <- Hcol, Hin.
    apply in_map, Hc.
Qed.

End CliFacts.

(** [getTags] lists its tags in ascending order of their strings, each
    one once. *)
Theorem getTags_sorted_without_duplicates spec :
  Sorted (fun a b => String.leb (Cli.display a) (Cli.display b) = true) (Cli.getTags spec) /\
  NoDup (Cli.getTags spec).
Proof.
  split; [apply CliFacts.sort_sorted|].
  unfold Cli.getTags.
  apply (Permutation_NoDup (Permutation_sym (CliFacts.sort_perm _))).
  apply CliFacts.uniqFrom_NoDup.
Qed.

(** A name is among the tags [getTags] lists exactly when [tags] declares
    it, as a string or as the name of a tag object, or when an operation of
    some path carries it. *)
Theorem getTags_lists_declared_and_used spec tag :
  In (Cli.Name tag) (Cli.getTags spec) <->
  (exists tags,
     Cli.spec_tags spec = Some tags /\
     (In (Cli.TagString tag) tags \/
      (In (Cli.TagObject (Some tag)) tags /\ tag <> EmptyString))) \/
  (exists paths path pathItem method operation tags,
     Cli.spec_paths spec = Some paths /\ In (path, pathItem) paths /\
     In (method, Some operation) pathItem /\
     Cli.op_tags operation = Some tags /\ In tag tags).
Proof.
  rewrite CliFacts.getTags_In.
  assert (Hdeclared : forall tags index,
            In (Cli.Name tag) (Cli.tagValues index tags) <->
            In (Cli.TagString tag) tags \/
            (In (Cli.TagObject (Some tag)) tags /\ tag <> EmptyString)).
  { induction tags as [|t tags IH]; intros index; simpl; [tauto|].
    rewrite IH. destruct t as [[[|c name]|]|s]; simpl.
    - split; [intros [H|H]; [discriminate|tauto]|].
      intros [[H|H]|[[H|H] Hne]]; try discriminate; try tauto.
      injection H as <-. congruence.
    - split.
      + intros [H|H]; [|tauto]. injection H as <-. right. split; [auto|discriminate].
      + intros [[H|H]|[[H|H] Hne]]; try discriminate; try tauto.
        injection H as <-. auto.
    - split; [intros [H|H]; [discriminate|tauto]|].
      intros [[H|H]|[[H|H] Hne]]; try discriminate; tauto.
    - split.
      + intros [H|H]; [|tauto]. injection H as <-. auto.
      + intros [[H|H]|[[H|H] Hne]]; try discriminate; try tauto.
        injection H as <-. auto. }
  assert (H1 : In (Cli.Name tag)
                  (Cli.tagValues 0 match Cli.spec_tags spec with
                                   | Some tags => tags
                                   | None => []
                                   end) <->
               exists tags,
                 Cli.spec_tags spec = Some tags /\
                 (In (Cli.TagString tag) tags \/
                  (In (Cli.TagObject (Some tag)) tags /\ tag <> EmptyString))).
  { destruct (Cli.spec_tags spec) as [tags|].
    - rewrite Hdeclared. split; [eauto|]. intros (tags' & E & H). injection E as <-. exact H.
    - simpl. split; [intros []|]. intros (tags & E & _). discriminate. }
  assert (H2 : (exists paths path pathItem,
                  Cli.spec_paths spec = Some paths /\ In (path, pathItem) paths /\
                  In (Cli.Name tag) (Cli.operationTags pathItem)) <->
               exists paths path pathItem method operation tags,
                 Cli.spec_paths spec = Some paths /\ In (path, pathItem) paths /\
                 In (method, Some operation) pathItem /\
                 Cli.op_tags operation = Some tags /\ In tag tags).
  { split.
    - intros (paths & path & pathItem & E & Hin & Hv).
      apply CliFacts.operationTags_In in Hv.
      destruct Hv as (method & operation & tags & Hm & Ht & Htag).
      exists paths, path, pathItem, method, operation, tags. repeat split; assumption.
    - intros (paths & path & pathItem & method & operation & tags & E & Hin & Hm & Ht & Htag).
      exists paths, path, pathItem. split; [exact E|]. split; [exact Hin|].
      apply CliFacts.operationTags_In. exists method, operation, tags.
      repeat split; assumption. }
  tauto.
Qed.

(** A tag for which the [endpoints] command finds an endpoint is one of the
    tags the [tags] command lists. *)
Theorem endpoints_tag_is_listed spec tag e es :
  Cli.endpoints spec tag = Some (e :: es) ->
  In (Cli.Name tag) (Cli.getTags spec).
Proof.
  unfold Cli.endpoints. destruct (Cli.spec_paths spec) as [paths|] eqn:Hpaths; [|discriminate].
  intros H. injection H as H.
  assert (He : In e (e :: es)) by (left; reflexivity). rewrite <- H in He.
  apply in_flat_map in He. destruct He as ([path pathItem] & Hin & He).
  apply in_flat_map in He. destruct He as ([method [operation|]] & Hm & He); [|destruct He].
  simpl in He. destruct (Cli.op_tags operation) as [tags|] eqn:Htags; [|destruct He].
  destruct (existsb (String.eqb tag) tags) eqn:Hhas; [|destruct He].
  apply existsb_exists in Hhas. destruct Hhas as (x & Hx & E).
  apply String.eqb_eq in E. subst x.
  apply CliFacts.getTags_In. right. exists paths, path, pathItem.
  split; [exact Hpaths|]. split; [exact Hin|].
  apply CliFacts.operationTags_In. exists method, operation, tags.
  repeat split; assumption.
Qed.

(** The [--subtasks] option, when given and not empty, yields one title per
    comma-separated field, the empty fields included: the option is its
    fields joined by commas, no field contains a comma, and the i-th title
    is the i-th field with the white space at its two ends removed (the
    field is white space, the title, white space, and the title neither
    starts nor ends with white space).  White space is the code units 9 to
    13, 32 and 160. *)
Theorem subtaskTitles_fields subtasks titles :
  Js.given subtasks = Some titles ->
  let space (c : ascii) := existsb (Nat.eqb (nat_of_ascii c)) [9; 10; 11; 12; 13; 32; 160] in
  length (Cli.subtaskTitles subtasks)
    = S (count_occ ascii_dec (Html.chars titles) ","%char) /\
  Forall (fun t => Html.trimStart t = t /\ Html.trimEnd t = t) (Cli.subtaskTitles subtasks) /\
  exists fields,
    String.concat "," fields = titles /\
    Forall (fun field => ~ In ","%char (Html.chars field)) fields /\
    Forall2 (fun field title =>
               exists before after,
                 field = (before ++ title ++ after)%string /\
                 forallb space (Html.chars before) = true /\
                 forallb space (Html.chars after) = true /\
                 (forall c rest, title = String c rest -> space c = false) /\
                 (forall rest c, title = (rest ++ String c EmptyString)%string ->
                    space c = false))
            fields (Cli.subtaskTitles subtasks).
Proof.
  intros Hgiven space. unfold Cli.subtaskTitles. rewrite Hgiven. split; [|split].
  - rewrite length_map. apply CliFacts.split_length.
  - apply Forall_forall. intros t Hin. apply in_map_iff in Hin.
    destruct Hin as (field & <- & _). apply HtmlFacts.trim_trimmed.
  - exists (Cli.split "," titles).
    split; [apply CliFacts.split_concat|]. split; [apply CliFacts.split_no_sep|].
    apply CliFacts.Forall2_map_r. intros field.
    destruct (CliFacts.trim_spec field) as (before & after & Hfield & Hb & Ha & Hhead & Hlast).
    exists before, after.
    rewrite !(CliFacts.forallb_same _ space Html.isSpace)
      by (intros c; symmetry; apply CliFacts.isSpace_codes).
    repeat split; auto.
    + intros c rest H. unfold space. rewrite <- CliFacts.isSpace_codes. eauto.
    + intros rest c H. unfold space. rewrite <- CliFacts.isSpace_codes. eauto.
Qed.

(** Titles written one after the other, separated by a comma and a space,
    are read back as they were: this holds for a non-empty list of
    non-empty titles that contain no comma and have no white space at their
    ends. *)
Theorem subtaskTitles_round_trip title titles :
  Forall (fun t => t <> EmptyString /\ ~ In ","%char (Html.chars t) /\
                   Html.trimStart t = t /\ Html.trimEnd t = t) (title :: titles) ->
  Cli.subtaskTitles (Some (Js.join ", " (title :: titles))) = title :: titles.
Proof.
  intros Hall. unfold Cli.subtaskTitles.
  assert (Hgiven : Js.given (Some (Js.join ", " (title :: titles)))
                   = Some (Js.join ", " (title :: titles))).
  { inversion Hall as [|? ? (Hne & _) _]; subst.
    destruct title as [|c title]; [congruence|]. destruct titles; reflexivity. }
  rewrite Hgiven, CliFacts.split_join.
  2: { eapply Forall_impl; [|exact Hall]. intros t (_ & Hno & _). exact Hno. }
  inversion Hall as [|? ? (_ & _ & Hs & He) Hrest]; subst. simpl. f_equal.
  - unfold Html.trim. rewrite Hs, He. reflexivity.
  - clear Hall Hgiven. induction Hrest as [|t ts (_ & _ & Hst & Het) _ IH]; [reflexivity|].
    simpl. f_equal; [|exact IH].
    change (Html.trim (String " " t)) with (Html.trimEnd (Html.trimStart t)).
    rewrite Hst, Het. reflexivity.
Qed.

(** The [board] command, when the columns have distinct ids, shows the
    columns in their order, and under them each task whose column is one
    of them exactly once, under that column, and no other task: the tasks
    shown, together with tasks that are in none of the columns, are the
    tasks of the board, each as many times as the board has it.  A task
    with no column, or with a column the board does not list, is not
    shown. *)
Theorem boardView_shows_listed_tasks board :
  NoDup (map column_id (ctx_columns board)) ->
  map fst (Cli.boardView board) = ctx_columns board /\
  (forall col tasks t, In (col, tasks) (Cli.boardView board) -> In t tasks ->
     In col (ctx_columns board) /\ In t (ctx_tasks board) /\
     task_boardColumnId t = Some (column_id col)) /\
  (exists hidden,
     Permutation (flat_map snd (Cli.boardView board) ++ hidden) (ctx_tasks board) /\
     Forall (fun t => forall col, In col (ctx_columns board) ->
                        task_boardColumnId t <> Some (column_id col)) hidden) /\
  length (flat_map snd (Cli.boardView board)) =
    length (filter (Cli.inSomeColumn (ctx_columns board)) (ctx_tasks board)).
Proof.
  intros Hdistinct. unfold Cli.boardView. split; [|split; [|split]].
  - rewrite map_map. apply map_id.
  - intros col tasks t Hin Ht. apply in_map_iff in Hin.
    destruct Hin as (c & E & Hc). injection E as -> <-.
    apply filter_In in Ht. destruct Ht as [Ht Hcol].
    split; [exact Hc|]. split; [exact Ht|].
    unfold Cli.inColumn in Hcol. destruct (task_boardColumnId t) as [i|]; [|discriminate].
    apply Pos.eqb_eq in Hcol. congruence.
  - exists (filter (fun t => negb (Cli.inSomeColumn (ctx_columns board) t)) (ctx_tasks board)).
    split.
    + rewrite flat_map_concat_map, map_map. cbn [snd]. rewrite <- flat_map_concat_map.
      apply CliFacts.shown_and_hidden, Hdistinct.
    + apply Forall_forall. intros t Ht col Hcol Heq.
      apply filter_In in Ht. destruct Ht as [_ Ht].
      apply negb_true_iff in Ht. unfold Cli.inSomeColumn in Ht.
      assert (Hex : existsb (fun c => Cli.inColumn c t) (ctx_columns board) = true).
      { apply existsb_exists. exists col. split; [exact Hcol|].
        unfold Cli.inColumn. rewrite Heq. apply Pos.eqb_refl. }
      congruence.
  - induction (ctx_columns board) as [|col columns IH]; simpl.
    + induction (ctx_tasks board) as [|t ts IHt]; [reflexivity|exact IHt].
    + inversion Hdistinct as [|? ? Hnew Hrest]; subst.
      rewrite length_app, (IH Hrest).
      change (Cli.inSomeColumn (col :: columns))
        with (fun t => Cli.inColumn col t || Cli.inSomeColumn columns t).
      rewrite CliFacts.length_filter_disjoint; [reflexivity|].
      intros t Hcol. unfold Cli.inSomeColumn.
      destruct (existsb (fun c => Cli.inColumn c t) columns) eqn:E; [|reflexivity].
      apply existsb_exists in E. destruct E as (c & Hc & Hin).
      unfold Cli.inColumn in *. destruct (task_boardColumnId t) as [i|]; [|discriminate].
      apply Pos.eqb_eq in Hcol, Hin. destruct Hnew. rewrite <- Hcol, Hin.
      apply in_map, Hc.
Qed.

(** * More runs on the sample data *)

(** With the remote out of reach, [getBoards()] throws after one request. *)
Lemma getBoards_throws_with_listing_witness :
  exists f,
    Sample.offline GET_projects tt = (Failed f, tt) /\
    RequestFailed (FetchRejected "network down") = RequestFailed f /\
    [(GET_projects, Failed (FetchRejected "network down"))] = [(GET_projects, Failed f)].
Proof.
  exact (getBoards_throws_with_listing Sample.offline tt
           (RequestFailed (FetchRejected "network down")) tt
           [(GET_projects, Failed (FetchRejected "network down"))] eq_refl).
Defined.

(** Both listings of board 10 out of order.  On a network where the later
    failure arrives first, the failure of the tasks is thrown; where the
    failures arrive in order, that of the columns.  Both requests are
    issued in either case. *)
Lemma getBoardWithContext_fetches_witness :
  let overtaken :=
    @getBoardWithContext _ Sample.laterFirst Sample.bothDown Demo.toLowerCase "release 2.0" [] in
  let ordered :=
    @getBoardWithContext _ Demo.inOrder Sample.bothDown Demo.toLowerCase "release 2.0" [] in
  (snd overtaken = Demo.listingTrace ++ [(GET_board_columns 10, Failed Sample.columnsDown);
                                         (GET_tasks (Some 10%positive), Failed Sample.tasksDown)] /\
   fst (fst overtaken) = Thrown (RequestFailed Sample.tasksDown)) /\
  (snd ordered = snd overtaken /\
   fst (fst ordered) = Thrown (RequestFailed Sample.columnsDown)).
Proof.
  intros overtaken ordered. split.
  - destruct (@getBoardWithContext_fetches _ Sample.laterFirst Sample.bothDown Demo.toLowerCase
                "release 2.0" [] [Sample.release] [] Demo.listingTrace
                (fst (fst overtaken)) (snd (fst overtaken)) (snd overtaken)
                eq_refl eq_refl) as (Ht & _ & Ho).
    split; [exact Ht|exact Ho].
  - destruct (@getBoardWithContext_fetches _ Demo.inOrder Sample.bothDown Demo.toLowerCase
                "release 2.0" [] [Sample.release] [] Demo.listingTrace
                (fst (fst ordered)) (snd (fst ordered)) (snd ordered)
                eq_refl eq_refl) as (Ht & _ & Ho).
    split; [exact Ht|exact Ho].
Defined.


(** The query "done" on a board that lists "Not done" before "Done": the
    first column is taken. *)
Lemma createTaskDetailed_named_column_witness :
  let spec := Demo.spec "T" (Some "release 2.0") (Some "done") None [] in
  let t := snd (createTaskDetailed Sample.twoColumns Demo.toLowerCase Demo.parseInt spec []) in
  Demo.requestedTitles t = ["T"] /\
  forall payload reply, In (POST_tasks payload, reply) t ->
    td_boardId payload = Some 10%positive /\ td_boardColumnId payload = Some 1%positive.
Proof.
  split; [reflexivity|].
  exact (proj2 (createTaskDetailed_named_column Sample.twoColumns Demo.toLowerCase
                  Demo.parseInt (Demo.spec "T" (Some "release 2.0") (Some "done") None [])
                  "release 2.0" "done" []
                  {| ctx_board := Sample.release; ctx_columns := Sample.columns;
                     ctx_tasks := [] |}
                  _ _ _ _ _ eq_refl eq_refl eq_refl eq_refl)).
Defined.

(** The payloads of a task with one subtask, created with priority "2" and
    no description. *)
Lemma createTaskDetailed_payload_defaults_witness :
  let t := Demo.trace (Demo.create (Demo.onRelease ["A"])) in
  td_description (Demo.mainPayload ["A"]) = Some EmptyString /\
  td_priority (Demo.mainPayload ["A"]) = Some (Js.Int 2) /\
  Forall (fun x : Exchange =>
            exists payload,
              fst x = POST_tasks payload /\ td_type payload = Some "action" /\
              td_description payload = None /\ td_priority payload = None)
         (Demo.afterMutation t).
Proof.
  intros t.
  destruct (createTaskDetailed_payload_defaults Demo.transport Demo.toLowerCase Demo.parseInt
              (Demo.onRelease ["A"]) []
              (Demo.outcome (Demo.create (Demo.onRelease ["A"])))
              (snd (fst (Demo.run (Demo.create (Demo.onRelease ["A"])))))
              t (Demo.untilMutation t) (Demo.mainPayload ["A"])
              (Replied (Demo.mainReply ["A"])) (Demo.afterMutation t)
              eq_refl eq_refl eq_refl) as ((_ & _ & _ & Hdescription & Hpriority) & Hsubtasks).
  split; [exact Hdescription|]. split; [exact Hpriority|exact Hsubtasks].
Defined.

(** [tm/boards] and [/tm/boards] go to the same URL. *)
Lemma urlOf_leading_slash_witness :
  Http.urlOf "https://api.weeek.net/public/v1" (fun s => s) "/tm/boards"
    (Some [("projectId", Some "3")]) =
  Http.urlOf "https://api.weeek.net/public/v1" (fun s => s) "tm/boards"
    (Some [("projectId", Some "3")]).
Proof.
  exact (proj2 (urlOf_leading_slash "https://api.weeek.net/public/v1" (fun s => s) "tm/boards"
                  (Some [("projectId", Some "3")])) eq_refl).
Defined.

(** Text in which the only special character is [>]. *)
Lemma stripHtml_plain_text_witness :
  Html.stripHtml (Some "  a > b ") = Html.trim "  a > b ".
Proof.
  apply stripHtml_plain_text; unfold Html.chars; simpl; intuition discriminate.
Defined.

(** "a < b": the [<] takes " b" with it. *)
Lemma stripHtml_unclosed_tag_witness :
  Html.stripHtml (Some ("a " ++ "<" ++ " b")%string) = Html.stripHtml (Some "a ").
Proof.
  apply stripHtml_unclosed_tag; unfold Html.chars; simpl; intuition discriminate.
Defined.

(** "Attachment" is used by an operation only, and is listed. *)
Lemma endpoints_tag_is_listed_witness :
  In (Cli.Name "Attachment") (Cli.getTags Sample.api).
Proof.
  exact (endpoints_tag_is_listed Sample.api "Attachment"
           {| Cli.ep_path := "/tm/tasks/{id}/files"; Cli.ep_method := "post";
              Cli.ep_summary := "No summary" |} [] eq_refl).
Defined.

(** "a,, b ,": four fields, two of them empty. *)
Lemma subtaskTitles_fields_witness :
  Cli.subtaskTitles (Some "a,, b ,") = ["a"; EmptyString; "b"; EmptyString] /\
  exists fields,
    String.concat "," fields = "a,, b ," /\
    Forall2 (fun field title : string => exists before after,
               field = (before ++ title ++ after)%string)
            fields (Cli.subtaskTitles (Some "a,, b ,")).
Proof.
  split; [reflexivity|].
  destruct (subtaskTitles_fields (Some "a,, b ,") "a,, b ," eq_refl)
    as (_ & _ & fields & Hjoin & _ & Hfields).
  exists fields. split; [exact Hjoin|].
  eapply Forall2_impl; [|exact Hfields].
  intros field title (before & after & Hfield & _). exists before, after. exact Hfield.
Defined.

(** The example of the documentation: "Check logs, Fix bug, Test". *)
Lemma subtaskTitles_round_trip_witness :
  Cli.subtaskTitles (Some "Check logs, Fix bug, Test") = ["Check logs"; "Fix bug"; "Test"].
Proof.
  apply (subtaskTitles_round_trip "Check logs" ["Fix bug"; "Test"]).
  repeat constructor; try discriminate; unfold Html.chars; simpl; intuition discriminate.
Defined.

(** Of the four tasks of the sample board, two are shown, task 3 under
    "Not done" and task 1 under "Done": the one without a column and the one
    in column 9 are not. *)
Lemma boardView_shows_listed_tasks_witness :
  Cli.boardView Sample.context =
    [(Demo.column 1 "Not done" 10, [Sample.task 3 (Some 1%positive)]);
     (Demo.column 2 "Done" 10, [Sample.task 1 (Some 2%positive)])] /\
  exists hidden,
    Permutation (flat_map snd (Cli.boardView Sample.context) ++ hidden)
                (ctx_tasks Sample.context) /\
    Forall (fun t => forall col, In col Sample.columns ->
                       task_boardColumnId t <> Some (column_id col)) hidden.
Proof.
  split; [reflexivity|].
  refine (proj1 (proj2 (proj2 (boardView_shows_listed_tasks Sample.context _)))).
  repeat constructor; simpl; intuition discriminate.
Defined.
